(** * bananadbg: the debugging console's command dispatch and navigation

    A shallow embedding of [bananadbg.py].  Python objects that the
    program shares and mutates (module namespaces, the class-level
    command mappings) live in explicit stores; the two output streams
    are character buffers; exceptions are values threaded through a
    small state-and-error monad. *)

From Stdlib Require Import Ascii String.
From stdpp Require Import gmap strings list fin_maps sorting.

Local Open Scope nat_scope.

(** * Python strings *)

(** [str] values are modelled by [string]; [len] is [String.length].  The
    names the console handles (identifiers, module names, command names)
    are ASCII, and [upper] is the ASCII part of [str.upper]. *)
Module Str.

Definition space : ascii := " "%char.

Definition is_space (c : ascii) : bool := Ascii.eqb c space.

(** [' ' * n] *)
Fixpoint spaces (n : nat) : string :=
  match n with
  | 0 => EmptyString
  | S n' => String space (spaces n')
  end.

(** [s.ljust(width)] *)
Definition ljust (width : nat) (s : string) : string :=
  s +:+ spaces (width - String.length s).

(** [s.rstrip(' ')] *)
Fixpoint rstrip (s : string) : string :=
  match s with
  | EmptyString => EmptyString
  | String c s' =>
      match rstrip s' with
      | EmptyString => if is_space c then EmptyString else String c EmptyString
      | r => String c r
      end
  end.

(** [sep.join(l)] *)
Fixpoint join (sep : string) (l : list string) : string :=
  match l with
  | [] => EmptyString
  | [s] => s
  | s :: l' => s +:+ sep +:+ join sep l'
  end.

Definition upper_char (c : ascii) : ascii :=
  let n := nat_of_ascii c in
  if (97 <=? n) && (n <=? 122) then ascii_of_nat (n - 32) else c.

(** [s.upper()] *)
Fixpoint upper (s : string) : string :=
  match s with
  | EmptyString => EmptyString
  | String c s' => String (upper_char c) (upper s')
  end.

(** [s.startswith(p)] *)
Definition startswith (p s : string) : bool := String.prefix p s.

(** [max(map(len, l))] for a non-empty [l]. *)
Definition max_len (l : list string) : nat :=
  foldr Nat.max 0 (map String.length l).

(** [l[start::step]] for [step >= 1]: the elements at the indices
    [start], [start + step], [start + 2 * step], ...  (Python raises
    [ValueError] for a zero step; [_print_list] never slices with one,
    see [rows_positive].) *)
Fixpoint slice_step {A} (l : list A) (start step : nat) : list A :=
  match l with
  | [] => []
  | x :: l' =>
      match start with
      | 0 => x :: slice_step l' (step - 1) step
      | S k => slice_step l' k step
      end
  end.

(** [s.endswith(c)] for a one-character [c] *)
Fixpoint endswith_char (c : ascii) (s : string) : bool :=
  match s with
  | EmptyString => false
  | String a EmptyString => Ascii.eqb a c
  | String _ s' => endswith_char c s'
  end.

(** [s[:-1]] *)
Fixpoint drop_last (s : string) : string :=
  match s with
  | EmptyString => EmptyString
  | String _ EmptyString => EmptyString
  | String a s' => String a (drop_last s')
  end.

(** [s[1:-1]] *)
Definition strip_ends (s : string) : string :=
  match s with
  | EmptyString => EmptyString
  | String _ s' => drop_last s'
  end.

(** [math.ceil(a / b)] for [b >= 1], in integer arithmetic.  The float
    quotient of the source is exact for every list length below 2^53. *)
Definition ceil_div (a b : nat) : nat := (a + b - 1) / b.

End Str.

(** * Exceptions *)

(** The exception classes that occur in the program.  [KeyboardInterrupt],
    [SystemExit] and [GeneratorExit] derive from [BaseException] only;
    every other class derives from [Exception]. *)
Inductive exc_class :=
| ValueError
| KeyError
| TypeError
| ImportError
| AttributeError
| EOFError
| OtherException (name : string)
| KeyboardInterrupt
| SystemExit
| GeneratorExit.

Record exc := Exc { exc_type : exc_class; exc_message : string }.

(** [isinstance(e, Exception)] *)
Definition is_Exception (e : exc) : bool :=
  match exc_type e with
  | KeyboardInterrupt | SystemExit | GeneratorExit => false
  | _ => true
  end.

(** [isinstance(e, (ValueError, KeyError))] *)
Definition is_ValueError_or_KeyError (e : exc) : bool :=
  match exc_type e with
  | ValueError | KeyError => true
  | _ => false
  end.

Inductive res (A : Type) :=
| Ok (a : A)
| Raise (e : exc).
Arguments Ok {A} a.
Arguments Raise {A} e.

(** * The console and its world *)

(** Python objects are known by their identity; [is] compares identities. *)
Definition pyobj := nat.
Definition py_is (a b : pyobj) : bool := bool_decide (a = b).

(** A module handle.  Each module owns one namespace dictionary, so the
    handle also stands for [module.__dict__]. *)
Definition modref := nat.

(** The instance attributes of a [DebugConsole]. *)
Record console := Console {
  _helper : pyobj;
  verbose : bool;
  modulename : option string;
  module : option modref
}.

(** What a running session can touch: the console instance, the
    namespaces of the loaded modules (shared with the program being
    debugged), and the two output streams. *)
Record world := World {
  con : console;
  namespaces : gmap modref (gmap string pyobj);
  stdout : string;
  stderr : string
}.

Definition M (A : Type) : Type := world -> res A * world.

Definition ret {A} (a : A) : M A := fun w => (Ok a, w).

Definition raise {A} (e : exc) : M A := fun w => (Raise e, w).

Definition bind {A B} (m : M A) (k : A -> M B) : M B :=
  fun w =>
    match m w with
    | (Ok a, w') => k a w'
    | (Raise e, w') => (Raise e, w')
    end.

Declare Scope py_scope.
Delimit Scope py_scope with py.
Notation "x <- m ;; k" := (bind m (fun x => k))
  (at level 100, m at next level, right associativity) : py_scope.
Notation "m ;; k" := (bind m (fun _ => k))
  (at level 100, right associativity) : py_scope.
Local Open Scope py_scope.

(** [for x in l: body(x)] *)
Fixpoint for_each {A} (l : list A) (body : A -> M unit) : M unit :=
  match l with
  | [] => ret tt
  | x :: l' => body x ;; for_each l' body
  end.

Definition when (b : bool) (m : M unit) : M unit :=
  if b then m else ret tt.

Inductive stream := Stdout | Stderr.

(** The world after [text] has been written to [file]. *)
Definition emit (file : stream) (text : string) (w : world) : world :=
  match file with
  | Stdout => World (con w) (namespaces w) (stdout w +:+ text) (stderr w)
  | Stderr => World (con w) (namespaces w) (stdout w) (stderr w +:+ text)
  end.

Definition write (file : stream) (text : string) : M unit :=
  fun w => (Ok tt, emit file text w).

Definition newline : string := String (ascii_of_nat 10) EmptyString.

(** [print] with [end=end_] and [file=file] *)
Definition print_end (file : stream) (args : list string) (end_ : string) : M unit :=
  write file (Str.join " " args +:+ end_).

(** [print] with [file=file] *)
Definition print_to (file : stream) (args : list string) : M unit :=
  print_end file args newline.

(** [print] to the standard stream *)
Definition print (args : list string) : M unit := print_to Stdout args.

(** * The host environment *)

(** What the program takes from the Python runtime and the standard
    library: the terminal, the tokenizer, the module loader and the
    renderings of objects.  Every result below holds for any host. *)
Class Host := {
  (** [shutil.get_terminal_size().columns] *)
  terminal_columns : nat;
  (** [sys.ps1] *)
  ps1 : string;
  (** [shlex.split]; [None] when it raises [ValueError] *)
  shlex_split : string -> option (list string);
  (** [importlib.util.resolve_name] on a name that starts with a dot *)
  resolve_relative : string -> option string -> res string;
  (** [importlib.import_module]; loading may run module code, which
      can change namespaces *)
  import_module :
    string -> gmap modref (gmap string pyobj) ->
    res modref * gmap modref (gmap string pyobj);
  (** what the code run by that load writes to the standard stream
      and to the error stream *)
  import_output : string -> gmap modref (gmap string pyobj) -> string * string;
  (** [sorted(dir(module))] *)
  sorted_dir : option modref -> gmap modref (gmap string pyobj) -> list string;
  (** [repr(module)] *)
  repr_module : option modref -> string;
  (** the text written by [traceback.print_exception] *)
  format_exception : exc -> string
}.

(** * Column layout: [_print_list] *)

(** One row of the multi-column layout: its cells, and the line they
    are joined into before [rstrip]. *)
Definition row_cells (stringlist : list string) (maxlen rows y : nat) : list string :=
  map (Str.ljust maxlen) (Str.slice_step stringlist y rows).

Definition row_line (stringlist : list string) (maxlen rows y : nat) : string :=
  Str.join "  " (row_cells stringlist maxlen rows y).

Definition _print_list `{Host} (stringlist : list string) : M unit :=
  match stringlist with
  | [] => raise (Exc ValueError "max() arg is an empty sequence")
  | _ =>
      let maxlen := Str.max_len stringlist in
      let columns := terminal_columns / (maxlen + 2) in
      if columns <? 2 then
        for_each stringlist (fun string_ => print [string_])
      else
        let rows := Str.ceil_div (length stringlist) columns in
        for_each (seq 0 rows) (fun y =>
          let line := row_line stringlist maxlen rows y in
          print [Str.rstrip line])
  end.

(** * Functions and commands *)

(** [inspect.Parameter.kind] *)
Inductive param_kind :=
| POSITIONAL_ONLY
| POSITIONAL_OR_KEYWORD
| VAR_POSITIONAL
| KEYWORD_ONLY
| VAR_KEYWORD.

Global Instance param_kind_eq_dec : EqDecision param_kind.
Proof. solve_decision. Defined.

(** A parameter of a signature; [param_default = None] is
    [inspect.Parameter.empty]. *)
Record param := Param {
  param_name : string;
  kind : param_kind;
  param_default : option string
}.

(** A function object.  [body] receives the values bound to the
    parameters after the first one, which takes the console; when the
    first parameter is a star parameter, the arguments that it collects
    after the console come before them. *)
Record pyfunction := Function {
  __name__ : string;
  parameters : list param;
  __doc__ : option string;
  body : list string -> M unit
}.

(** Binding positional arguments to parameters, as a call does.  It
    is used on the parameters after the first, which are
    positional-or-keyword in every function that [command] accepts. *)
Fixpoint bind_arguments (fname : string) (params : list param) (args : list string)
  : res (list string) :=
  match params, args with
  | [], [] => Ok []
  | [], _ :: _ =>
      Raise (Exc TypeError (fname +:+ "() takes too many positional arguments"))
  | p :: params', a :: args' =>
      match bind_arguments fname params' args' with
      | Ok vals => Ok (a :: vals)
      | Raise e => Raise e
      end
  | p :: params', [] =>
      match param_default p with
      | Some d =>
          match bind_arguments fname params' [] with
          | Ok vals => Ok (d :: vals)
          | Raise e => Raise e
          end
      | None =>
          Raise (Exc TypeError
                   (fname +:+ "() missing required positional argument: " +:+ param_name p))
      end
  end.

(** [func(console, *args)].  The console goes to the first
    parameter.  A positional first parameter takes it, and the
    arguments are bound to the parameters after it.  A star first
    parameter takes the console and every argument, and the parameters
    after it get no argument.  A keyword-only or double-star first
    parameter takes no positional argument, so the call fails. *)
Definition call (func : pyfunction) (args : list string) : M unit :=
  match parameters func with
  | [] =>
      raise (Exc TypeError
               (__name__ func +:+ "() takes 0 positional arguments but more were given"))
  | first :: params =>
      match kind first with
      | POSITIONAL_ONLY | POSITIONAL_OR_KEYWORD =>
          match bind_arguments (__name__ func) params args with
          | Ok vals => body func vals
          | Raise e => raise e
          end
      | VAR_POSITIONAL =>
          match bind_arguments (__name__ func) params [] with
          | Ok vals => body func (args ++ vals)
          | Raise e => raise e
          end
      | KEYWORD_ONLY | VAR_KEYWORD =>
          raise (Exc TypeError
                   (__name__ func
                    +:+ "() takes 0 positional arguments but more were given"))
      end
  end.

(** [Command = collections.namedtuple('Command', 'func reqargs optargs doc')] *)
Record Command := mkCommand {
  func : pyfunction;
  reqargs : list string;
  optargs : list string;
  doc : option string
}.

(** * The class-level command mappings *)

(** A mapping object is a plain [dict] or a
    [collections.ChainMap({}, parent)]: a private first dictionary and a
    reference to the mapping object it was chained to. *)
Definition loc := nat.

Inductive mapping :=
| Dict (d : gmap string Command)
| ChainMap (first : gmap string Command) (parent : loc).

(** A console class is named by its path of subclass names down from
    [DebugConsole], innermost first: [[]] is [DebugConsole] itself and
    [n :: c] is the subclass [n] of [c]. *)
Abbreviation cls := (list string).

Definition DebugConsole : cls := [].

(** The mapping objects, newest first (the object at location [l] is
    the one with [l] objects below it), and for each class the
    [commands] entry of its own [__dict__], if it has one. *)
Record classes := Classes {
  heap : list mapping;
  own_commands : gmap cls loc
}.

(** [cls.commands]: the attribute is found in the class's own
    [__dict__] or in that of the nearest base class having it. *)
Fixpoint commands (k : classes) (c : cls) : option loc :=
  match own_commands k !! c with
  | Some l => Some l
  | None =>
      match c with
      | [] => None
      | _ :: base => commands k base
      end
  end.

(** [mapping[key]] on the object at [l]; [None] is [KeyError].  A
    [ChainMap] tries its first dictionary and then its parent, an
    object that existed before it. *)
Fixpoint getitem (h : list mapping) (l : loc) (key : string) : option Command :=
  match h with
  | [] => None
  | o :: h' =>
      if l =? length h' then
        match o with
        | Dict d => d !! key
        | ChainMap first parent =>
            match first !! key with
            | Some c => Some c
            | None => getitem h' parent key
            end
        end
      else getitem h' l key
  end.

(** [mapping[key] = value] on the object at [l]; a [ChainMap] writes
    to its first dictionary. *)
Definition store (o : mapping) (key : string) (value : Command) : mapping :=
  match o with
  | Dict d => Dict (<[key := value]> d)
  | ChainMap first parent => ChainMap (<[key := value]> first) parent
  end.

Fixpoint setitem (h : list mapping) (l : loc) (key : string) (value : Command)
  : list mapping :=
  match h with
  | [] => []
  | o :: h' =>
      if l =? length h' then store o key value :: h'
      else o :: setitem h' l key value
  end.

(** The loop over [params] in [command]. *)
Fixpoint scan_parameters (fname : string) (params : list param)
    (reqargs optargs : list string) : res (list string * list string) :=
  match params with
  | [] => Ok (reqargs, optargs)
  | p :: params' =>
      if bool_decide (kind p = POSITIONAL_OR_KEYWORD) then
        match param_default p with
        | None => scan_parameters fname params' (reqargs ++ [param_name p]) optargs
        | Some _ => scan_parameters fname params' reqargs (optargs ++ [param_name p])
        end
      else Raise (Exc TypeError ("unsupported function signature: " +:+ fname))
  end.

(** The object at location [l]. *)
Fixpoint deref (h : list mapping) (l : loc) : option mapping :=
  match h with
  | [] => None
  | o :: h' => if l =? length h' then Some o else deref h' l
  end.

(** The first four lines of [command]: a class without a [commands]
    entry of its own gets [ChainMap({}, cls.commands)]. *)
Definition ensure_own_commands (c : cls) (k : classes) : res unit * classes :=
  match own_commands k !! c with
  | Some _ => (Ok tt, k)
  | None =>
      match commands k c with
      | None => (Raise (Exc AttributeError "commands"), k)
      | Some inherited =>
          (Ok tt,
           Classes (ChainMap ∅ inherited :: heap k)
                   (<[c := length (heap k)]> (own_commands k)))
      end
  end.

(** [DebugConsole.command], the registration decorator, applied on
    the class [c]. *)
Definition command (c : cls) (func : pyfunction) (k : classes) : res unit * classes :=
  match ensure_own_commands c k with
  | (Raise e, k1) => (Raise e, k1)
  | (Ok _, k1) =>
      match scan_parameters (__name__ func) (tail (parameters func)) [] [] with
      | Raise e => (Raise e, k1)
      | Ok (reqargs, optargs) =>
          match commands k1 c with
          | None => (Raise (Exc AttributeError "commands"), k1)
          | Some l =>
              (Ok tt,
               Classes (setitem (heap k1) l (__name__ func)
                          (mkCommand func reqargs optargs (__doc__ func)))
                       (own_commands k1))
          end
      end
  end.

(** [console.commands[name]] for a console of class [c]. *)
Definition lookup_command (k : classes) (c : cls) (name : string) : option Command :=
  match commands k c with
  | Some l => getitem (heap k) l name
  | None => None
  end.

(** The class objects as the module body leaves them before
    [_setup_commands]: [DebugConsole.commands = {}]. *)
Definition initial_classes : classes :=
  Classes [Dict ∅] {[ DebugConsole := 0 ]}.

(** The class states that registrations can produce. *)
Inductive reachable : classes -> Prop :=
| reachable_initial : reachable initial_classes
| reachable_command c func k :
    reachable k -> reachable (snd (command c func k)).

(** [a] is a proper base class of [c]. *)
Definition proper_base (a c : cls) : Prop := a `suffix_of` c /\ a <> c.

(** The shape of the class states that registrations produce:
    [DebugConsole] has a mapping of its own; no two classes own the same
    object; the object of [DebugConsole] is a [dict]; the object of any
    other class is a [ChainMap] whose parent is an older object, owned
    by one of its proper base classes. *)
Record wf (k : classes) : Prop := {
  wf_base : is_Some (own_commands k !! DebugConsole);
  wf_inj : forall c1 c2 l,
    own_commands k !! c1 = Some l -> own_commands k !! c2 = Some l -> c1 = c2;
  wf_obj : forall c l,
    own_commands k !! c = Some l ->
    exists o,
      deref (heap k) l = Some o
      /\ match o with
         | Dict _ => c = DebugConsole
         | ChainMap _ p =>
             c <> DebugConsole /\ p < l
             /\ exists a, proper_base a c /\ own_commands k !! a = Some p
         end
}.

(** * [DebugConsole] instances *)

Definition get_console : M console := fun w => (Ok (con w), w).

Definition set_console (c : console) : M unit :=
  fun w => (Ok tt, World c (namespaces w) (stdout w) (stderr w)).

Definition get_namespaces : M (gmap modref (gmap string pyobj)) :=
  fun w => (Ok (namespaces w), w).

Definition set_namespaces (ns : gmap modref (gmap string pyobj)) : M unit :=
  fun w => (Ok tt, World (con w) ns (stdout w) (stderr w)).

(** The namespace dictionary behind a module handle. *)
Definition namespace_of (ns : gmap modref (gmap string pyobj)) (m : modref)
  : gmap string pyobj :=
  ns !!! m.

(** [DebugConsole.__init__]: the base class initializer assigns its
    [locals] argument to [self.locals], which goes through the property
    setter below. *)
Definition __init__ (helper : pyobj) (verbose : bool) : console :=
  Console helper verbose None None.

(** The [locals] property: [self.module.__dict__]. *)
Definition locals : M modref :=
  c <- get_console ;;
  match module c with
  | Some m => ret m
  | None =>
      raise (Exc AttributeError "'NoneType' object has no attribute '__dict__'")
  end.

(** The [locals] setter: [pass]. *)
Definition set_locals (value : gmap string pyobj) : M unit := ret tt.

(** [d.setdefault(key, value)] on the dictionary of [d] *)
Definition dict_setdefault (d : modref) (key : string) (value : pyobj) : M unit :=
  ns <- get_namespaces ;;
  match namespace_of ns d !! key with
  | Some _ => ret tt
  | None => set_namespaces (<[d := <[key := value]> (namespace_of ns d)]> ns)
  end.

(** [d.get(key, object()) is value]: a missing key yields a fresh
    object, identical to nothing else. *)
Definition dict_get_is (d : modref) (key : string) (value : pyobj) : M bool :=
  ns <- get_namespaces ;;
  match namespace_of ns d !! key with
  | Some v => ret (py_is v value)
  | None => ret false
  end.

(** [del d[key]] *)
Definition dict_del (d : modref) (key : string) : M unit :=
  ns <- get_namespaces ;;
  match namespace_of ns d !! key with
  | Some _ => set_namespaces (<[d := delete key (namespace_of ns d)]> ns)
  | None => raise (Exc KeyError key)
  end.

Definition add_helper : M unit :=
  d <- locals ;;
  c <- get_console ;;
  dict_setdefault d "help" (_helper c).

Definition remove_helper : M unit :=
  d <- locals ;;
  c <- get_console ;;
  same <- dict_get_is d "help" (_helper c) ;;
  if same : bool then
    d' <- locals ;;
    dict_del d' "help"
  else ret tt.

(** The usage line of [_check_args], printed piece by piece. *)
Definition print_usage (commandname : string) (command : Command) : M unit :=
  print_end Stdout ["Usage:"; commandname] "" ;;
  for_each (reqargs command) (fun arg =>
    print_end Stdout [" " +:+ Str.upper arg] "") ;;
  for_each (optargs command) (fun arg =>
    print_end Stdout [" [" +:+ Str.upper arg +:+ "]"] "") ;;
  print [].

(** [_check_args] returns [True] or [None]; [false] stands for the
    falsy [None]. *)
Definition _check_args (k : classes) (c : cls) (commandname : string)
    (args : list string) : M bool :=
  match lookup_command k c commandname with
  | None => raise (Exc KeyError commandname)
  | Some command =>
      if length args <? length (reqargs command) then
        print_to Stderr ["Missing arguments for " +:+ commandname +:+ "."] ;;
        print_usage commandname command ;;
        ret false
      else if length (reqargs command) + length (optargs command) <? length args then
        print_to Stderr ["Too many arguments for " +:+ commandname +:+ "."] ;;
        print_usage commandname command ;;
        ret false
      else
        ret true
  end.

Definition run_command (k : classes) (c : cls) (commandname : string)
    (args : list string) : M unit :=
  match lookup_command k c commandname with
  | None => raise (Exc KeyError commandname)
  | Some command => call (func command) args
  end.

(** [try: body / except <caught>: handler] *)
Definition try_except {A} (body : M A) (caught : exc -> bool) (handler : exc -> M A)
  : M A :=
  fun w =>
    match body w with
    | (Raise e, w') => if caught e then handler e w' else (Raise e, w')
    | r => r
    end.

(** [commandname, *args = shlex.split(string)] *)
Definition split_command `{Host} (string_ : string) : M (string * list string) :=
  match shlex_split string_ with
  | None => raise (Exc ValueError "No closing quotation")
  | Some [] => raise (Exc ValueError "not enough values to unpack")
  | Some (commandname :: args) => ret (commandname, args)
  end.

(** [input(prompt)] with the lines still to be read in [lines]: the
    prompt is written, and the next line is returned with the rest. *)
Definition input (prompt : string) (lines : list string) : M (string * list string) :=
  write Stdout prompt ;;
  match lines with
  | [] => raise (Exc EOFError "EOF when reading a line")
  | string_ :: rest => ret (string_, rest)
  end.

(** The [while True] loop of [raw_input], by recursion on the lines
    still to be read; each round starts with [input(prompt)].  It
    returns the line handed to the interpreter, with the input left
    unread. *)
Fixpoint command_loop `{Host} (k : classes) (c : cls) (prompt : string)
    (lines : list string) : M (string * list string) :=
  match lines with
  | [] => input prompt []
  | string_ :: rest =>
      write Stdout prompt ;;
      parsed <- try_except
                  (tokens <- split_command string_ ;;
                   let '(commandname, args) := tokens in
                   ok <- _check_args k c commandname args ;;
                   ret (Some (commandname, args, ok)))
                  is_ValueError_or_KeyError
                  (fun _ => ret None) ;;
      match parsed with
      | None => ret (string_, rest)
      | Some (commandname, args, ok) =>
          (if ok : bool then
             try_except
               (run_command k c commandname args)
               is_Exception
               (fun e =>
                  print_to Stderr
                    ["An exception occurred while running " +:+ commandname +:+ "!"] ;;
                  write Stderr (format_exception e))
           else ret tt) ;;
          command_loop k c prompt rest
      end
  end.

Definition raw_input `{Host} (k : classes) (c : cls) (prompt : string)
    (lines : list string) : M (string * list string) :=
  if bool_decide (prompt = ps1) then command_loop k c prompt lines
  else input prompt lines.

(** * The built-in commands *)

(** [importlib.util.resolve_name]: a name that does not start with a
    dot is absolute and returned as it is. *)
Definition resolve_name `{Host} (name : string) (package : option string) : res string :=
  if negb (Str.startswith "." name) then Ok name
  else resolve_relative name package.

Definition lift_res {A} (r : res A) : M A :=
  match r with
  | Ok a => ret a
  | Raise e => raise e
  end.

(** [importlib.import_module(name)] run in the world: the load yields
    its result, leaves the namespaces it leaves, and the code it ran
    has written what it wrote to the two streams. *)
Definition do_import `{Host} (name : string) : M modref :=
  fun w =>
    let '(r, ns) := import_module name (namespaces w) in
    let '(out, err) := import_output name (namespaces w) in
    (r, World (con w) ns (stdout w +:+ out) (stderr w +:+ err)).

(** [str(x)] of a name that may be [None]. *)
Definition str_of_name (x : option string) : string :=
  match x with
  | Some s => s
  | None => "None"
  end.

(** The body of [cd], with [modulename] bound. *)
Definition cd_body `{Host} (modulename_ : string) : M unit :=
  console <- get_console ;;
  when (verbose console)
    (print ["Importing"; modulename_; "and changing the current"; "module to it"]) ;;
  modulename' <- lift_res (resolve_name modulename_ (modulename console)) ;;
  module' <- do_import modulename' ;;
  console <- get_console ;;
  match module console with
  | Some _ => remove_helper
  | None => ret tt
  end ;;
  console <- get_console ;;
  set_console (Console (_helper console) (verbose console)
                 (modulename console) (Some module')) ;;
  console <- get_console ;;
  set_console (Console (_helper console) (verbose console)
                 (Some modulename') (module console)) ;;
  add_helper.

Definition unbound {A} (fname : string) : M A :=
  raise (Exc TypeError (fname +:+ "() called with an unexpected number of values")).

Definition cd `{Host} : pyfunction :=
  Function "cd"
    [Param "console" POSITIONAL_OR_KEYWORD None;
     Param "modulename" POSITIONAL_OR_KEYWORD (Some "__main__")]
    (Some "Change the current module.

        The new module will be imported, and it can be relative to the
        old module. If no arguments are given, go to __main__.
        ")
    (fun vals =>
       match vals with
       | [modulename_] => cd_body modulename_
       | _ => unbound "cd"
       end).

Definition ls_body `{Host} : M unit :=
  console <- get_console ;;
  when (verbose console)
    (print ["Listing the variables in"; str_of_name (modulename console)]) ;;
  ns <- get_namespaces ;;
  _print_list (sorted_dir (module console) ns).

Definition ls `{Host} : pyfunction :=
  Function "ls"
    [Param "console" POSITIONAL_OR_KEYWORD None]
    (Some "Print a list of variables in the current module.

        This is equivalent to dir(), but this prints the list nicely in
        multiple columns.
        ")
    (fun vals =>
       match vals with
       | [] => ls_body
       | _ => unbound "ls"
       end).

Definition pwd_body `{Host} : M unit :=
  console <- get_console ;;
  when (verbose console) (print_end Stdout ["You are currently in"] " ") ;;
  let result := repr_module (module console) in
  let result :=
    if Str.startswith "<" result && Str.endswith_char ">" result
    then Str.strip_ends result else result in
  print [result].

Definition pwd `{Host} : pyfunction :=
  Function "pwd"
    [Param "console" POSITIONAL_OR_KEYWORD None]
    (Some "Print the name of the current module.")
    (fun vals =>
       match vals with
       | [] => pwd_body
       | _ => unbound "pwd"
       end).

(** [_setup_commands()]: the three decorators run on [DebugConsole]. *)
Definition _setup_commands `{Host} (k : classes) : classes :=
  let k := snd (command DebugConsole cd k) in
  let k := snd (command DebugConsole ls k) in
  snd (command DebugConsole pwd k).

(** The class objects once the module has been imported. *)
Definition builtin_classes `{Host} : classes := _setup_commands initial_classes.

(** * The specification's wording *)

(** The usage line as the specification words it: the command name,
    then each required name uppercased, then each optional name
    uppercased and bracketed. *)
Definition spec_usage_line (commandname : string) (required optional : list string)
  : string :=
  "Usage: " +:+ commandname
  +:+ String.concat "" (map (fun arg => " " +:+ Str.upper arg) required)
  +:+ String.concat "" (map (fun arg => " [" +:+ Str.upper arg +:+ "]") optional).

(** The arity contract: [len(args)] lies within
    [[len(required), len(required) + len(optional)]]. *)
Definition spec_arity_ok (required optional args : list string) : Prop :=
  length required <= length args <= length required + length optional.

(** A line is no command when it does not tokenize, or when its first
    token, if there is one, is not a registered command name. *)
Definition spec_not_a_command `{Host} (k : classes) (c : cls) (string_ : string) : Prop :=
  match shlex_split string_ with
  | None => True
  | Some [] => True
  | Some (commandname :: _) => lookup_command k c commandname = None
  end.

(** Failure isolation as the specification words it: nothing a handler
    raises leaves the loop, so the loop itself only ever raises at the
    end of the input. *)
Definition spec_every_fault_is_isolated : Prop :=
  forall (H : Host) (k : classes) (c : cls) (lines : list string) (w w' : world)
         (e : exc),
    command_loop k c ps1 lines w = (Raise e, w') -> exc_type e = EOFError.

(** The helper binding as the specification words it: installed into
    a unit's namespace only when the name is not bound there, and
    removed from the unit being left only when the name is bound to the
    very object the console installed. *)
Definition spec_install_helper (helper : pyobj) (m : modref)
    (ns : gmap modref (gmap string pyobj)) : gmap modref (gmap string pyobj) :=
  match namespace_of ns m !! "help" with
  | Some _ => ns
  | None => <[m := <["help" := helper]> (namespace_of ns m)]> ns
  end.

Definition spec_remove_helper (helper : pyobj) (left : option modref)
    (ns : gmap modref (gmap string pyobj)) : gmap modref (gmap string pyobj) :=
  match left with
  | None => ns
  | Some m =>
      match namespace_of ns m !! "help" with
      | Some v =>
          if bool_decide (v = helper)
          then <[m := delete "help" (namespace_of ns m)]> ns
          else ns
      | None => ns
      end
  end.

(** The world in which [cd] resolves its target: the verbose line, if
    any, has been printed. *)
Definition announced (modulename_ : string) (w : world) : world :=
  if verbose (con w)
  then emit Stdout
         ("Importing " +:+ modulename_ +:+ " and changing the current module to it"
          +:+ newline) w
  else w.

(** * A sample host and sample sessions *)

(** A small host to run the definitions on: the tokenizer splits on
    blanks and rejects any line with a quotation mark, and three
    modules can be loaded. *)
Module Sample.

Definition is_quote (c : ascii) : bool :=
  Ascii.eqb c (ascii_of_nat 34) || Ascii.eqb c (ascii_of_nat 39).

Fixpoint has_quote (s : string) : bool :=
  match s with
  | EmptyString => false
  | String c s' => is_quote c || has_quote s'
  end.

Fixpoint split_blanks (s : string) (word : string) : list string :=
  match s with
  | EmptyString => match word with EmptyString => [] | _ => [word] end
  | String c s' =>
      if Str.is_space c then
        match word with
        | EmptyString => split_blanks s' EmptyString
        | _ => word :: split_blanks s' EmptyString
        end
      else split_blanks s' (word +:+ String c EmptyString)
  end.

Definition split (s : string) : option (list string) :=
  if has_quote s then None else Some (split_blanks s EmptyString).

Definition import (name : string) (ns : gmap modref (gmap string pyobj))
  : res modref * gmap modref (gmap string pyobj) :=
  if bool_decide (name = "__main__") then (Ok 1, ns)
  else if bool_decide (name = "pkg") then (Ok 2, ns)
  else if bool_decide (name = "pkg.sub") then (Ok 3, ns)
  else (Raise (Exc ImportError ("No module named " +:+ name)), ns).

Definition relative (name : string) (package : option string) : res string :=
  match package with
  | Some p => Ok (p +:+ name)
  | None => Raise (Exc ImportError "no package specified for relative import")
  end.

#[export] Instance host : Host := {|
  terminal_columns := 14;
  ps1 := ">>> ";
  shlex_split := split;
  resolve_relative := relative;
  import_module := import;
  import_output := fun _ _ => ("", "");
  sorted_dir := fun _ _ => ["alpha"; "b"; "gamma"; "delta"; "e"];
  repr_module := fun _ => "<module 'pkg'>";
  format_exception := fun e => exc_message e +:+ newline
|}.

(** The console's helper is object 7; module 2 already binds [help]
    to another object, module 1 does not. *)
Definition fresh : world :=
  World (__init__ 7 false) {[ 2 := {[ "help" := 9 ]} ]} "" "".

Definition at_main : world :=
  World (Console 7 false (Some "__main__") (Some 1))
        {[ 1 := {[ "help" := 7; "x" := 5 ]}; 2 := {[ "help" := 9 ]} ]} "" "".

(** Two commands of a subclass: one raises an [Exception], the other
    calls [sys.exit()]. *)
Definition boom : pyfunction :=
  Function "boom" [Param "console" POSITIONAL_OR_KEYWORD None] None
    (fun _ => raise (Exc ValueError "boom")).

Definition quit : pyfunction :=
  Function "quit" [Param "console" POSITIONAL_OR_KEYWORD None] None
    (fun _ => raise (Exc SystemExit "")).

Definition MyConsole : cls := ["MyConsole"].

Definition my_classes : classes :=
  snd (command MyConsole quit (snd (command MyConsole boom builtin_classes))).

(** A class and a subclass of it, where the subclass registers before
    the class does. *)
Definition Middle : cls := ["Middle"].

Definition Leaf : cls := ["Leaf"; "Middle"].

Definition late_classes : classes :=
  snd (command Middle quit (snd (command Leaf boom builtin_classes))).

End Sample.

(** * The helper object and the session *)

(** What the help object and [debug] take from the standard library
    and the interpreter. *)
Class Runtime := {
  (** [textwrap.fill] *)
  textwrap_fill : string -> string;
  (** [inspect.cleandoc] *)
  cleandoc : string -> string;
  (** [pydoc.help] *)
  pydoc_help : pyobj -> M unit;
  (** [repr] of a [str] *)
  repr_str : string -> string;
  (** ['.'.join(map(str, sys.version_info[:3]))] *)
  python_version : string;
  (** [code.InteractiveConsole.interact('')], which reads its lines
      through the console's [raw_input] method *)
  interact : (string -> list string -> M (string * list string)) -> M unit
}.

(** [_wprint] *)
Definition _wprint `{Runtime} (string_ : string) : M unit :=
  print_end Stdout [textwrap_fill string_] (newline +:+ newline).

(** [s.split('\n')[0]] *)
Fixpoint first_line (s : string) : string :=
  match s with
  | EmptyString => EmptyString
  | String a s' =>
      if Ascii.eqb a (ascii_of_nat 10) then EmptyString
      else String a (first_line s')
  end.

(** [dict(mapping)]: the keys of a [ChainMap] are those of all its
    maps, and each key has the value that [mapping[key]] finds. *)
Fixpoint mapping_items (h : list mapping) (l : loc) : gmap string Command :=
  match h with
  | [] => ∅
  | o :: h' =>
      if l =? length h' then
        match o with
        | Dict d => d
        | ChainMap first parent => first ∪ mapping_items h' parent
        end
      else mapping_items h' l
  end.

(** The order of [sorted] on [(name, command)] pairs with distinct
    names: by name. *)
Definition by_name (x y : string * Command) : Prop := String.le x.1 y.1.

Global Instance by_name_dec : RelDecision by_name.
Proof. intros x y. unfold by_name. apply _. Defined.

(** [sorted(console.commands.items())] for a console of class [c].
    The names are distinct, so every sorting algorithm gives this
    list. *)
Definition sorted_commands (k : classes) (c : cls) : list (string * Command) :=
  match commands k c with
  | Some l => merge_sort by_name (map_to_list (mapping_items (heap k) l))
  | None => []
  end.

(** The line that [help()] prints for one command. *)
Definition command_line `{Runtime} (entry : string * Command) : string :=
  match doc entry.2 with
  | None => entry.1
  | Some d => "  " +:+ Str.ljust 10 entry.1 +:+ "  " +:+ first_line (cleandoc d)
  end.

(** [_Helper.__repr__] *)
Definition _Helper_repr `{Runtime} : string :=
  textwrap_fill
    ("Type help() for help about this debugging console or "
     +:+ "help(something) to use Python's built-in help().").

(** [_Helper.__call__] of the helper of a console of class [c];
    [something = None] is the default [_NOTHING]. *)
Definition _Helper_call `{Runtime} (k : classes) (c : cls) (something : option pyobj)
  : M unit :=
  match something with
  | None =>
      _wprint ("This is a special Python prompt for debugging large "
               +:+ "projects that consist of several modules.") ;;
      _wprint ("Using this prompt is easy. You can enter any Python "
               +:+ "commands to run them. They will be run in the "
               +:+ "current module, which is a lot like the current "
               +:+ "working directory of a shell or a command prompt.") ;;
      print ["Here is a list of the special commands:"] ;;
      for_each (sorted_commands k c) (fun entry => print [command_line entry])
  | Some obj => pydoc_help obj
  end.

(** [debug(module, consoleclass=consoleclass, verbose=verbose)].  The
    console is created as a [DebugConsole] whatever [consoleclass] is;
    [helper] is the identity of the helper object it creates. *)
Definition debug `{Host} `{Runtime} (k : classes) (module_ : string)
    (consoleclass : cls) (verbose_ : bool) (helper : pyobj) : M unit :=
  print ["Starting a debugging session in module"; repr_str module_;
         "on Python"; python_version] ;;
  print ["Type 'help' for more info."] ;;
  set_console (__init__ helper verbose_) ;;
  run_command k DebugConsole "cd" [module_] ;;
  interact (raw_input k DebugConsole) ;;
  print ["Exiting the debugging session."] ;;
  remove_helper.

(** The value a parameter takes when no argument is given for it. *)
Definition default_value (p : param) : string :=
  match param_default p with
  | Some d => d
  | None => EmptyString
  end.

(** A run of registrations, first to last. *)
Fixpoint register_all (registrations : list (cls * pyfunction)) (k : classes) : classes :=
  match registrations with
  | [] => k
  | (c, func) :: registrations' => register_all registrations' (snd (command c func k))
  end.

(** The helper binding is exclusive: only the current module's
    namespace may bind [help] to the console's helper object. *)
Definition helper_exclusive (w : world) : Prop :=
  forall m,
    namespace_of (namespaces w) m !! "help" = Some (_helper (con w)) ->
    module (con w) = Some m.

(** A second sample: a runtime whose session reads two lines, and a
    function with an unsupported signature. *)
Module SampleSession.

#[export] Instance runtime : Runtime := {|
  textwrap_fill := fun s => s;
  cleandoc := fun s => s;
  pydoc_help := fun _ => print ["Help on object"];
  repr_str := fun s => "'" +:+ s +:+ "'";
  python_version := "3.6.0";
  interact := fun raw_input_ => raw_input_ ">>> " ["cd pkg"; "x = 1"] ;; ret tt
|}.

Definition variadic : pyfunction :=
  Function "variadic"
    [Param "console" POSITIONAL_OR_KEYWORD None;
     Param "args" VAR_POSITIONAL None]
    None (fun _ => ret tt).

Definition two : pyfunction :=
  Function "two"
    [Param "console" POSITIONAL_OR_KEYWORD None;
     Param "a" POSITIONAL_OR_KEYWORD None;
     Param "b" POSITIONAL_OR_KEYWORD (Some "dflt")]
    (Some "Take one or two.")
    (fun vals => print vals).

Definition bare : world :=
  World (Console 7 false (Some "__main__") (Some 1))
        {[ 1 := {[ "x" := 5 ]}; 2 := {[ "help" := 9 ]} ]} "" "".

End SampleSession.

(** * Strings: basic facts *)

Lemma str_app_nil_r (s : string) : s +:+ "" = s.
Proof. induction s as [|a s IH]; [done|]. unfold String.app in *; simpl. by rewrite IH. Qed.

Lemma str_app_assoc (s1 s2 s3 : string) : (s1 +:+ s2) +:+ s3 = s1 +:+ s2 +:+ s3.
Proof.
  induction s1 as [|a s1 IH]; [done|].
  unfold String.app in *; simpl. by rewrite IH.
Qed.

Lemma str_app_cons (a : ascii) (s1 s2 : string) : String a s1 +:+ s2 = String a (s1 +:+ s2).
Proof. done. Qed.

Lemma str_length_app (s1 s2 : string) :
  String.length (s1 +:+ s2) = String.length s1 + String.length s2.
Proof.
  induction s1 as [|a s1 IH]; [done|].
  rewrite str_app_cons. simpl. by rewrite IH.
Qed.

Lemma concat_nil_sep_cons (s : string) (l : list string) :
  String.concat "" (s :: l) = s +:+ String.concat "" l.
Proof. destruct l as [|s' l]; simpl; [by rewrite str_app_nil_r|done]. Qed.

(** * Output: what a sequence of prints leaves in the streams *)

Lemma emit_emit (file : stream) (s1 s2 : string) (w : world) :
  emit file s2 (emit file s1 w) = emit file (s1 +:+ s2) w.
Proof. destruct file; unfold emit; simpl; by rewrite str_app_assoc. Qed.

Lemma emit_nil (file : stream) (w : world) : emit file "" w = w.
Proof. destruct w, file; unfold emit; simpl; by rewrite str_app_nil_r. Qed.

Lemma write_emit (file : stream) (text : string) (w : world) :
  write file text w = (Ok tt, emit file text w).
Proof. done. Qed.

Lemma for_each_print_end (file : stream) {A} (f : A -> string) (l : list A) (w : world) :
  for_each l (fun x => print_end file [f x] "") w
  = (Ok tt, emit file (String.concat "" (map f l)) w).
Proof.
  revert w. induction l as [|x l IH]; intros w.
  - cbn [for_each map String.concat]. by rewrite emit_nil.
  - cbn [for_each map]. unfold bind at 1.
    unfold print_end at 1. rewrite write_emit, IH, emit_emit.
    cbn [Str.join]. by rewrite str_app_nil_r, concat_nil_sep_cons.
Qed.

Lemma print_usage_emit (commandname : string) (command : Command) (w : world) :
  print_usage commandname command w
  = (Ok tt,
     emit Stdout
       (spec_usage_line commandname (reqargs command) (optargs command) +:+ newline) w).
Proof.
  unfold print_usage, bind.
  unfold print_end at 1. rewrite write_emit.
  rewrite (for_each_print_end Stdout (fun arg => " " +:+ Str.upper arg)).
  rewrite (for_each_print_end Stdout (fun arg => " [" +:+ Str.upper arg +:+ "]")).
  unfold print, print_to, print_end. rewrite write_emit, !emit_emit.
  unfold spec_usage_line. cbn [Str.join].
  by rewrite !str_app_nil_r, !str_app_assoc.
Qed.

(** * Argument validation *)

Lemma check_args_unfold (k : classes) (c : cls) (commandname : string)
    (command : Command) (args : list string) (w : world) :
  lookup_command k c commandname = Some command ->
  _check_args k c commandname args w =
    if length args <? length (reqargs command) then
      (Ok false,
       emit Stdout
         (spec_usage_line commandname (reqargs command) (optargs command) +:+ newline)
         (emit Stderr ("Missing arguments for " +:+ commandname +:+ "." +:+ newline) w))
    else if length (reqargs command) + length (optargs command) <? length args then
      (Ok false,
       emit Stdout
         (spec_usage_line commandname (reqargs command) (optargs command) +:+ newline)
         (emit Stderr ("Too many arguments for " +:+ commandname +:+ "." +:+ newline) w))
    else (Ok true, w).
Proof.
  intros Hlook. unfold _check_args. rewrite Hlook.
  destruct (length args <? length (reqargs command));
    [|destruct (length (reqargs command) + length (optargs command) <? length args)];
    [| |done].
  all: unfold bind, print_to, print_end; rewrite write_emit, print_usage_emit;
    cbn [Str.join]; by rewrite !str_app_assoc.
Qed.

(** C4: for a registered command, validation fails exactly when there
    are fewer arguments than required names or more than required plus
    optional names; it succeeds exactly within the arity contract; and
    when it fails, the usage line printed is the command name followed
    by the required names uppercased and then the optional names
    uppercased and bracketed, each group in the descriptor's order. *)
Theorem check_args_arity_and_usage (k : classes) (c : cls) (commandname : string)
    (command : Command) (args : list string) (w : world) :
  lookup_command k c commandname = Some command ->
  let r := _check_args k c commandname args w in
  (fst r = Ok false <->
     length args < length (reqargs command)
     \/ length args > length (reqargs command) + length (optargs command))
  /\ (fst r = Ok true <-> spec_arity_ok (reqargs command) (optargs command) args)
  /\ (fst r = Ok false ->
      stdout (snd r)
      = stdout w
        +:+ spec_usage_line commandname (reqargs command) (optargs command)
        +:+ newline).
Proof.
  intros Hlook r. subst r. rewrite (check_args_unfold _ _ _ _ _ _ Hlook).
  unfold spec_arity_ok.
  destruct (Nat.ltb_spec (length args) (length (reqargs command))) as [Hlt|Hge].
  { cbn. repeat split; try done; try lia; auto. }
  destruct (Nat.ltb_spec (length (reqargs command) + length (optargs command))
              (length args)) as [Hgt|Hle].
  { cbn. repeat split; try done; try lia; auto. }
  cbn. repeat split; try done; try lia.
Qed.

Lemma check_args_arity_and_usage_witness :
  let r := _check_args (@builtin_classes Sample.host) DebugConsole "cd" ["a"; "b"]
             Sample.fresh in
  fst r = Ok false
  /\ stdout (snd r) = "Usage: cd [MODULENAME]" +:+ newline.
Proof.
  intros r.
  destruct (check_args_arity_and_usage (@builtin_classes Sample.host) DebugConsole "cd"
              (mkCommand (@cd Sample.host) [] ["modulename"]
                 (__doc__ (@cd Sample.host)))
              ["a"; "b"] Sample.fresh eq_refl) as (Hfail & _ & Hout).
  assert (fst r = Ok false) as Hr by (apply Hfail; right; simpl; lia).
  split; [exact Hr|]. exact (Hout Hr).
Defined.

(** The descriptor's two groups are the signature's parameters after
    the console, without and with a default, in declaration order. *)
Lemma scan_parameters_order (fname : string) (params : list param)
    (req opt : list string) :
  Forall (fun p => kind p = POSITIONAL_OR_KEYWORD) params ->
  scan_parameters fname params req opt
  = Ok (req ++ map param_name (filter (fun p => param_default p = None) params),
        opt ++ map param_name (filter (fun p => param_default p <> None) params)).
Proof.
  intros Hall. revert req opt.
  induction Hall as [|p params Hp _ IH]; intros req opt.
  - cbn. by rewrite !app_nil_r.
  - cbn [scan_parameters]. rewrite bool_decide_eq_true_2 by done.
    destruct (param_default p) as [d|] eqn:Hd.
    + rewrite IH. rewrite filter_cons_False by (rewrite Hd; done).
      rewrite filter_cons_True by (rewrite Hd; done).
      cbn. by rewrite <- (assoc_L (++)).
    + rewrite IH. rewrite filter_cons_True by done.
      rewrite filter_cons_False by (rewrite Hd; intros Hn; by apply Hn).
      cbn. by rewrite <- (assoc_L (++)).
Qed.

(** The failing case of [_check_args], stream by stream: the complaint
    goes to the error stream and the usage line to the standard one. *)
Lemma check_args_failure_streams (k : classes) (c : cls) (commandname : string)
    (command : Command) (args : list string) (w : world) :
  lookup_command k c commandname = Some command ->
  fst (_check_args k c commandname args w) = Ok false ->
  exists complaint,
    stderr (snd (_check_args k c commandname args w))
    = stderr w +:+ complaint +:+ commandname +:+ "." +:+ newline
    /\ stdout (snd (_check_args k c commandname args w))
       = stdout w
         +:+ spec_usage_line commandname (reqargs command) (optargs command)
         +:+ newline.
Proof.
  intros Hlook. rewrite (check_args_unfold _ _ _ _ _ _ Hlook).
  destruct (length args <? length (reqargs command));
    [|destruct (length (reqargs command) + length (optargs command) <? length args)];
    cbn; intros Hr; try done.
  - by exists "Missing arguments for ".
  - by exists "Too many arguments for ".
Qed.

(** C9: [ls x] fails validation; the complaint is written to the error
    stream, but the usage line is written to the standard stream. *)
Theorem check_args_usage_on_stdout :
  let r := _check_args (@builtin_classes Sample.host) DebugConsole "ls" ["x"] Sample.fresh in
  fst r = Ok false
  /\ stderr (snd r) = "Too many arguments for ls." +:+ newline
  /\ stdout (snd r) = "Usage: ls" +:+ newline.
Proof. vm_compute. done. Qed.

(** * The read loop *)

Lemma command_loop_fallback `{Host} (k : classes) (c : cls) (prompt string_ : string)
    (rest : list string) (w : world) :
  spec_not_a_command k c string_ ->
  command_loop k c prompt (string_ :: rest) w = (Ok (string_, rest), emit Stdout prompt w).
Proof.
  unfold spec_not_a_command. intros Hnot.
  cbn [command_loop]. unfold bind at 1. rewrite write_emit.
  unfold bind at 1, try_except, bind at 1, split_command.
  destruct (shlex_split string_) as [[|commandname args]|]; try done.
  cbn. unfold _check_args. by rewrite Hnot.
Qed.

(** C3: a line read at the primary prompt that does not tokenize, or
    whose first token is no registered command name, is returned whole
    and unchanged for the interpreter; apart from the prompt nothing is
    written to the standard stream, and nothing to the error stream. *)
Theorem raw_input_falls_back `{Host} (k : classes) (c : cls) (string_ : string)
    (rest : list string) (w : world) :
  spec_not_a_command k c string_ ->
  raw_input k c ps1 (string_ :: rest) w = (Ok (string_, rest), emit Stdout ps1 w)
  /\ stdout (emit Stdout ps1 w) = stdout w +:+ ps1
  /\ stderr (emit Stdout ps1 w) = stderr w.
Proof.
  intros Hnot. unfold raw_input. rewrite bool_decide_eq_true_2 by done.
  by rewrite command_loop_fallback.
Qed.

Lemma raw_input_falls_back_witness :
  @raw_input Sample.host (@builtin_classes Sample.host) DebugConsole ">>> "
    ["frobnicate x y"; "z"] Sample.fresh
  = (Ok ("frobnicate x y", ["z"]), emit Stdout ">>> " Sample.fresh).
Proof.
  refine (proj1 (@raw_input_falls_back Sample.host (@builtin_classes Sample.host)
                   DebugConsole "frobnicate x y" ["z"] Sample.fresh _)).
  unfold spec_not_a_command. reflexivity.
Defined.

(** One round of the loop on a line that is a command with a valid
    number of arguments. *)
Lemma command_loop_dispatch `{Host} (k : classes) (c : cls) (prompt string_ : string)
    (rest : list string) (commandname : string) (args : list string)
    (command : Command) (w : world) :
  shlex_split string_ = Some (commandname :: args) ->
  lookup_command k c commandname = Some command ->
  spec_arity_ok (reqargs command) (optargs command) args ->
  command_loop k c prompt (string_ :: rest) w =
    match call (func command) args (emit Stdout prompt w) with
    | (Ok _, w') => command_loop k c prompt rest w'
    | (Raise e, w') =>
        if is_Exception e then
          command_loop k c prompt rest
            (emit Stderr (format_exception e)
               (emit Stderr
                  ("An exception occurred while running " +:+ commandname +:+ "!"
                   +:+ newline) w'))
        else (Raise e, w')
    end.
Proof.
  intros Hsplit Hlook [Hlo Hhi].
  cbn [command_loop]. unfold bind at 1. rewrite write_emit.
  unfold bind at 1, try_except at 1, bind at 1, split_command. rewrite Hsplit.
  cbn [ret]. unfold bind at 1.
  rewrite (check_args_unfold _ _ _ _ _ _ Hlook).
  destruct (Nat.ltb_spec (length args) (length (reqargs command))); [lia|].
  destruct (Nat.ltb_spec (length (reqargs command) + length (optargs command))
              (length args)); [lia|].
  cbn [ret]. unfold bind at 1, try_except, run_command. rewrite Hlook.
  destruct (call (func command) args (emit Stdout prompt w)) as [[[]|e] w']; [done|].
  destruct (is_Exception e); [|done].
  unfold bind, print_to, print_end. rewrite !write_emit. cbn [Str.join].
  by rewrite !str_app_assoc.
Qed.

(** One round of the loop on a command line with a wrong number of
    arguments: usage is printed and the loop reads on. *)
Lemma command_loop_usage `{Host} (k : classes) (c : cls) (prompt string_ : string)
    (rest : list string) (commandname : string) (args : list string)
    (command : Command) (w : world) :
  shlex_split string_ = Some (commandname :: args) ->
  lookup_command k c commandname = Some command ->
  ~ spec_arity_ok (reqargs command) (optargs command) args ->
  command_loop k c prompt (string_ :: rest) w =
    command_loop k c prompt rest
      (snd (_check_args k c commandname args (emit Stdout prompt w))).
Proof.
  intros Hsplit Hlook Hbad.
  cbn [command_loop]. unfold bind at 1. rewrite write_emit.
  unfold bind at 1, try_except at 1, bind at 1, split_command. rewrite Hsplit.
  cbn [ret]. unfold bind at 1.
  rewrite (check_args_unfold _ _ _ _ _ _ Hlook).
  unfold spec_arity_ok in Hbad.
  destruct (Nat.ltb_spec (length args) (length (reqargs command))); [done|].
  destruct (Nat.ltb_spec (length (reqargs command) + length (optargs command))
              (length args)); [done|lia].
Qed.

(** The loop raises only at the end of the input, or what a handler
    raised outside of [Exception]. *)
Lemma command_loop_raises `{Host} (k : classes) (c : cls) (prompt : string)
    (lines : list string) (w w' : world) (e : exc) :
  command_loop k c prompt lines w = (Raise e, w') ->
  exc_type e = EOFError \/ is_Exception e = false.
Proof.
  revert w. induction lines as [|string_ rest IH]; intros w.
  { cbn. intros [= <- _]. by left. }
  destruct (shlex_split string_) as [[|commandname args]|] eqn:Hsplit.
  2: destruct (lookup_command k c commandname) as [command|] eqn:Hlook.
  1,3,4: rewrite command_loop_fallback; [done|unfold spec_not_a_command; by rewrite Hsplit].
  destruct (decide (spec_arity_ok (reqargs command) (optargs command) args)) as [Hok|Hbad].
  - rewrite (command_loop_dispatch _ _ _ _ _ _ _ _ _ Hsplit Hlook Hok).
    destruct (call (func command) args (emit Stdout prompt w)) as [[[]|e'] w1]; [apply IH|].
    destruct (is_Exception e') eqn:He'; [apply IH|].
    intros [= <- _]. by right.
  - rewrite (command_loop_usage _ _ _ _ _ _ _ _ _ Hsplit Hlook Hbad). apply IH.
Qed.

(** C2, as amended: when the handler of a registered command raises,
    what the loop does depends on the exception's class alone.  An
    instance of [Exception] is caught: the loop writes the diagnostic
    naming the command and the exception's full report to the error
    stream and goes on to read the next line.  An exception outside of
    [Exception] ([KeyboardInterrupt], [SystemExit], [GeneratorExit]) is
    not caught: it leaves the loop as it was raised, in the world the
    handler left, with nothing reported and the rest of the input
    unread.  So no [Exception] instance of a handler ever leaves the
    loop: what leaves it is the end of the input, or an exception
    outside of [Exception]. *)
Theorem handler_exception_is_isolated `{Host} (k : classes) (c : cls)
    (string_ : string) (rest : list string) (commandname : string)
    (args : list string) (command : Command) (e : exc) (w w1 : world) :
  shlex_split string_ = Some (commandname :: args) ->
  lookup_command k c commandname = Some command ->
  spec_arity_ok (reqargs command) (optargs command) args ->
  call (func command) args (emit Stdout ps1 w) = (Raise e, w1) ->
  (is_Exception e = true ->
   raw_input k c ps1 (string_ :: rest) w
   = raw_input k c ps1 rest
       (emit Stderr (format_exception e)
          (emit Stderr
             ("An exception occurred while running " +:+ commandname +:+ "!"
              +:+ newline) w1)))
  /\ (is_Exception e = false ->
      raw_input k c ps1 (string_ :: rest) w = (Raise e, w1))
  /\ (forall lines w0 w' e',
        raw_input k c ps1 lines w0 = (Raise e', w') ->
        exc_type e' = EOFError \/ is_Exception e' = false).
Proof.
  intros Hsplit Hlook Hok Hcall.
  assert (raw_input k c ps1 (string_ :: rest) w =
            if is_Exception e
            then raw_input k c ps1 rest
                   (emit Stderr (format_exception e)
                      (emit Stderr
                         ("An exception occurred while running " +:+ commandname
                          +:+ "!" +:+ newline) w1))
            else (Raise e, w1)) as Hstep.
  { unfold raw_input. rewrite bool_decide_eq_true_2 by done.
    rewrite (command_loop_dispatch _ _ _ _ _ _ _ _ _ Hsplit Hlook Hok).
    by rewrite Hcall. }
  split; [|split].
  - intros He. by rewrite Hstep, He.
  - intros He. by rewrite Hstep, He.
  - intros lines w0 w' e'. unfold raw_input. rewrite bool_decide_eq_true_2 by done.
    apply command_loop_raises.
Qed.

Lemma handler_exception_is_isolated_witness :
  (exists w',
     @raw_input Sample.host Sample.my_classes Sample.MyConsole ">>> " ["boom"; "z"]
       Sample.fresh
     = @raw_input Sample.host Sample.my_classes Sample.MyConsole ">>> " ["z"] w'
     /\ stderr w' = "An exception occurred while running boom!" +:+ newline
                    +:+ "boom" +:+ newline)
  /\ exists w1,
       @raw_input Sample.host Sample.my_classes Sample.MyConsole ">>> " ["quit"; "z"]
         Sample.fresh
       = (Raise (Exc SystemExit ""), w1).
Proof.
  split.
  - eexists. split.
    + refine (proj1 (@handler_exception_is_isolated Sample.host Sample.my_classes
                       Sample.MyConsole "boom" ["z"] "boom" []
                       (mkCommand Sample.boom [] [] None) (Exc ValueError "boom")
                       Sample.fresh _ _ _ _ _) _).
      * vm_compute; reflexivity.
      * vm_compute; reflexivity.
      * unfold spec_arity_ok; simpl; lia.
      * vm_compute; reflexivity.
      * reflexivity.
    + vm_compute; reflexivity.
  - eexists.
    refine (proj1 (proj2 (@handler_exception_is_isolated Sample.host Sample.my_classes
                            Sample.MyConsole "quit" ["z"] "quit" []
                            (mkCommand Sample.quit [] [] None) (Exc SystemExit "")
                            Sample.fresh _ _ _ _ _)) _).
    + vm_compute; reflexivity.
    + vm_compute; reflexivity.
    + unfold spec_arity_ok; simpl; lia.
    + vm_compute; reflexivity.
    + reflexivity.
Defined.

(** C2, as stated, fails: the command [quit] of [MyConsole] calls
    [sys.exit()]; the [SystemExit] it raises is not caught, leaves the
    loop and ends the session with the line [z] unread. *)
Lemma system_exit_leaves_the_loop :
  fst (@raw_input Sample.host Sample.my_classes Sample.MyConsole ">>> "
         ["quit"; "z"] Sample.fresh)
  = Raise (Exc SystemExit "")
  /\ ~ spec_every_fault_is_isolated.
Proof.
  split; [vm_compute; reflexivity|].
  intros Hspec.
  pose proof (Hspec Sample.host Sample.my_classes Sample.MyConsole ["quit"; "z"]
                Sample.fresh
                (snd (@command_loop Sample.host Sample.my_classes Sample.MyConsole
                        ">>> " ["quit"; "z"] Sample.fresh))
                (Exc SystemExit "")) as Hc.
  assert (exc_type (Exc SystemExit "") = EOFError) as Habs; [|discriminate Habs].
  apply Hc. vm_compute; reflexivity.
Qed.

(** * Navigation *)

Lemma add_helper_unfold (w : world) (m : modref) :
  module (con w) = Some m ->
  add_helper w
  = (Ok tt,
     World (con w) (spec_install_helper (_helper (con w)) m (namespaces w))
       (stdout w) (stderr w)).
Proof.
  intros Hm. destruct w as [c ns out err]. cbn in Hm.
  unfold add_helper, locals, bind, get_console, dict_setdefault, get_namespaces,
    spec_install_helper. cbn. rewrite Hm. cbn.
  by destruct (namespace_of ns m !! "help").
Qed.

Lemma remove_helper_unfold (w : world) (m : modref) :
  module (con w) = Some m ->
  remove_helper w
  = (Ok tt,
     World (con w) (spec_remove_helper (_helper (con w)) (Some m) (namespaces w))
       (stdout w) (stderr w)).
Proof.
  intros Hm. destruct w as [c ns out err]. cbn in Hm.
  unfold remove_helper, locals, bind, get_console, dict_get_is, dict_del,
    get_namespaces, spec_remove_helper, py_is. cbn. rewrite Hm. cbn.
  destruct (namespace_of ns m !! "help") as [v|] eqn:Hv; cbn; [|done].
  destruct (bool_decide (v = _helper c)) eqn:Hd; cbn; [|done].
  rewrite Hm. cbn. by rewrite Hv.
Qed.

(** What [cd] does, case by case. *)
Lemma cd_body_unfold `{Host} (modulename_ : string) (w : world) :
  cd_body modulename_ w =
    let w1 := announced modulename_ w in
    match resolve_name modulename_ (modulename (con w)) with
    | Raise e => (Raise e, w1)
    | Ok n =>
        let out := stdout w1 +:+ (import_output n (namespaces w)).1 in
        let err := stderr w1 +:+ (import_output n (namespaces w)).2 in
        match import_module n (namespaces w) with
        | (Raise e, ns) => (Raise e, World (con w) ns out err)
        | (Ok m, ns) =>
            (Ok tt,
             World (Console (_helper (con w)) (verbose (con w)) (Some n) (Some m))
               (spec_install_helper (_helper (con w)) m
                  (spec_remove_helper (_helper (con w)) (module (con w)) ns))
               out err)
        end
    end.
Proof.
  destruct w as [[helper v name mo] ns out err].
  unfold cd_body. unfold bind at 1. cbn [get_console con verbose].
  unfold bind at 1.
  assert (when v (print ["Importing"; modulename_; "and changing the current";
                         "module to it"]) (World (Console helper v name mo) ns out err)
          = (Ok tt, announced modulename_ (World (Console helper v name mo) ns out err)))
    as ->.
  { unfold announced, when, print, print_to, print_end. cbn [con verbose].
    destruct v; [|done]. rewrite write_emit. cbn [Str.join].
    by rewrite !str_app_assoc. }
  cbn [con modulename namespaces module _helper verbose].
  set (w1 := announced _ _).
  assert (con w1 = Console helper v name mo /\ namespaces w1 = ns /\ stderr w1 = err)
    as (Hc & Hns & Herr).
  { subst w1. unfold announced. by destruct v. }
  unfold bind at 1.
  destruct (resolve_name modulename_ name) as [n|e]; cbn [lift_res]; [|done].
  cbn [ret]. unfold bind at 1, do_import. rewrite Hns. cbv zeta.
  destruct (import_output n ns) as [o1 o2]. cbn [fst snd].
  destruct (import_module n ns) as [[m|e] ns1]; rewrite Hc, ?Herr; [|done].
  unfold bind at 1. cbn [get_console con module].
  destruct mo as [mo|].
  - unfold bind at 1. rewrite (remove_helper_unfold _ mo) by done.
    cbn -[spec_remove_helper spec_install_helper add_helper].
    unfold bind. cbn -[spec_remove_helper spec_install_helper add_helper].
    by rewrite (add_helper_unfold _ m).
  - unfold bind. cbn -[spec_remove_helper spec_install_helper add_helper].
    by rewrite (add_helper_unfold _ m).
Qed.

Lemma builtin_lookup_cd `{Host} :
  lookup_command builtin_classes DebugConsole "cd"
  = Some (mkCommand cd [] ["modulename"] (__doc__ cd)).
Proof. reflexivity. Qed.

Lemma builtin_lookup_ls `{Host} :
  lookup_command builtin_classes DebugConsole "ls"
  = Some (mkCommand ls [] [] (__doc__ ls)).
Proof. reflexivity. Qed.

Lemma builtin_lookup_pwd `{Host} :
  lookup_command builtin_classes DebugConsole "pwd"
  = Some (mkCommand pwd [] [] (__doc__ pwd)).
Proof. reflexivity. Qed.

Lemma run_cd `{Host} (args : list string) (w : world) :
  run_command builtin_classes DebugConsole "cd" args w =
    match args with
    | [] => cd_body "__main__" w
    | [modulename_] => cd_body modulename_ w
    | _ => (Raise (Exc TypeError "cd() takes too many positional arguments"), w)
    end.
Proof.
  unfold run_command. rewrite builtin_lookup_cd.
  destruct args as [|a [|b args]]; reflexivity.
Qed.

(** C1: [cd] is atomic.  When resolving the requested name fails, or
    loading the resolved name fails, [cd] raises that failure and the
    console's current name and current module are what they were before
    the call; [cd] itself has written to no namespace (only the loader
    may have). *)
Theorem cd_is_atomic `{Host} (modulename_ : string) (w : world) (e : exc) :
  resolve_name modulename_ (modulename (con w)) = Raise e
  \/ (exists n, resolve_name modulename_ (modulename (con w)) = Ok n
                /\ fst (import_module n (namespaces w)) = Raise e) ->
  exists w',
    run_command builtin_classes DebugConsole "cd" [modulename_] w = (Raise e, w')
    /\ modulename (con w') = modulename (con w)
    /\ module (con w') = module (con w)
    /\ con w' = con w
    /\ (namespaces w' = namespaces w
        \/ exists n, namespaces w' = snd (import_module n (namespaces w))).
Proof.
  intros Hfail. rewrite run_cd, cd_body_unfold. cbv zeta.
  assert (con (announced modulename_ w) = con w
          /\ namespaces (announced modulename_ w) = namespaces w) as [Hc Hns].
  { unfold announced. by destruct (verbose (con w)). }
  destruct Hfail as [Hres|(n & Hres & Himp)]; rewrite Hres.
  - eexists. split; [done|]. rewrite Hc, Hns. auto.
  - destruct (import_module n (namespaces w)) as [[m|e'] ns] eqn:Hi; cbn in Himp; [done|].
    injection Himp as ->. eexists. split; [done|]. cbn.
    repeat split; try done. right. exists n. by rewrite Hi.
Qed.

Lemma cd_is_atomic_witness :
  exists w',
    @run_command (@builtin_classes Sample.host) DebugConsole "cd" ["nope"] Sample.at_main
    = (Raise (Exc ImportError "No module named nope"), w')
    /\ modulename (con w') = Some "__main__"
    /\ module (con w') = Some 1.
Proof.
  destruct (@cd_is_atomic Sample.host "nope" Sample.at_main
              (Exc ImportError "No module named nope"))
    as (w' & Hrun & Hname & Hmod & _).
  - right. exists "nope". split; vm_compute; reflexivity.
  - exists w'. split; [exact Hrun|]. split; [exact Hname|exact Hmod].
Defined.

(** C8: [cd] without an argument navigates to ["__main__"], the entry
    module: the name is resolved to itself whatever the current name
    is, that name is what the loader is asked for, and when loading
    succeeds it becomes the current name with the loaded module as the
    current module. *)
Theorem cd_without_argument_goes_to_main `{Host} (w : world) :
  run_command builtin_classes DebugConsole "cd" [] w
  = run_command builtin_classes DebugConsole "cd" ["__main__"] w
  /\ resolve_name "__main__" (modulename (con w)) = Ok "__main__"
  /\ match import_module "__main__" (namespaces w) with
     | (Ok m, _) =>
         exists w',
           run_command builtin_classes DebugConsole "cd" [] w = (Ok tt, w')
           /\ modulename (con w') = Some "__main__"
           /\ module (con w') = Some m
     | (Raise e, _) =>
         exists w',
           run_command builtin_classes DebugConsole "cd" [] w = (Raise e, w')
     end.
Proof.
  rewrite !run_cd, cd_body_unfold. cbv zeta.
  assert (resolve_name "__main__" (modulename (con w)) = Ok "__main__") as -> by done.
  repeat split.
  destruct (import_module "__main__" (namespaces w)) as [[m|e] ns]; eauto.
Qed.

(** * The helper binding *)

Lemma install_helper_lookup (helper : pyobj) (m m' : modref) (key : string)
    (ns : gmap modref (gmap string pyobj)) :
  namespace_of (spec_install_helper helper m ns) m' !! key =
    if decide (m' = m /\ key = "help" /\ namespace_of ns m !! "help" = None)
    then Some helper
    else namespace_of ns m' !! key.
Proof.
  unfold spec_install_helper, namespace_of.
  destruct ((ns !!! m) !! "help") as [v|] eqn:Hv.
  - rewrite decide_False; [done|]. intros (_ & _ & ?). done.
  - destruct (decide (m' = m)) as [->|Hne].
    + rewrite lookup_total_insert_eq.
      destruct (decide (key = "help")) as [->|Hk].
      * rewrite lookup_insert_eq. by rewrite decide_True.
      * rewrite lookup_insert_ne by done. rewrite decide_False; [done|].
        intros (_ & ? & _). done.
    + rewrite lookup_total_insert_ne by done. rewrite decide_False; [done|].
      intros (? & _). done.
Qed.

Lemma remove_helper_lookup (helper : pyobj) (m m' : modref) (key : string)
    (ns : gmap modref (gmap string pyobj)) :
  namespace_of (spec_remove_helper helper (Some m) ns) m' !! key =
    if decide (m' = m /\ key = "help" /\ namespace_of ns m !! "help" = Some helper)
    then None
    else namespace_of ns m' !! key.
Proof.
  unfold spec_remove_helper, namespace_of.
  destruct ((ns !!! m) !! "help") as [v|] eqn:Hv.
  - destruct (decide (v = helper)) as [->|Hvh].
    + rewrite bool_decide_eq_true_2 by done.
      destruct (decide (m' = m)) as [->|Hne].
      * rewrite lookup_total_insert_eq.
        destruct (decide (key = "help")) as [->|Hk].
        -- rewrite lookup_delete_eq. by rewrite decide_True.
        -- rewrite lookup_delete_ne by done. rewrite decide_False; [done|].
           intros (_ & ? & _). done.
      * rewrite lookup_total_insert_ne by done. rewrite decide_False; [done|].
        intros (? & _). done.
    + rewrite bool_decide_eq_false_2 by done. rewrite decide_False; [done|].
      intros (_ & _ & [= ?]). done.
  - rewrite decide_False; [done|]. intros (_ & _ & ?). done.
Qed.

(** C6: [add_helper] binds [help] in the current module's namespace
    only when the name is not bound there, and changes nothing else;
    [remove_helper] deletes [help] only when it is bound to the
    console's own helper object, and changes nothing else; and a
    successful [cd] does exactly the removal on the module it leaves
    (none on the first navigation) followed by the installation on the
    module it enters. *)
Theorem helper_binding_is_guarded `{Host} (w : world) (m : modref) :
  module (con w) = Some m ->
  (exists w1,
     add_helper w = (Ok tt, w1) /\ con w1 = con w
     /\ forall m' key,
          namespace_of (namespaces w1) m' !! key =
            if decide (m' = m /\ key = "help"
                       /\ namespace_of (namespaces w) m !! "help" = None)
            then Some (_helper (con w))
            else namespace_of (namespaces w) m' !! key)
  /\ (exists w2,
        remove_helper w = (Ok tt, w2) /\ con w2 = con w
        /\ forall m' key,
             namespace_of (namespaces w2) m' !! key =
               if decide (m' = m /\ key = "help"
                          /\ namespace_of (namespaces w) m !! "help"
                             = Some (_helper (con w)))
               then None
               else namespace_of (namespaces w) m' !! key)
  /\ (forall modulename_ n entered ns1,
        resolve_name modulename_ (modulename (con w)) = Ok n ->
        import_module n (namespaces w) = (Ok entered, ns1) ->
        exists w',
          run_command builtin_classes DebugConsole "cd" [modulename_] w = (Ok tt, w')
          /\ module (con w') = Some entered
          /\ namespaces w'
             = spec_install_helper (_helper (con w)) entered
                 (spec_remove_helper (_helper (con w)) (Some m) ns1)).
Proof.
  intros Hm. split; [|split].
  - eexists. split; [by apply add_helper_unfold|]. split; [done|].
    intros m' key. cbn [namespaces]. apply install_helper_lookup.
  - eexists. split; [by apply remove_helper_unfold|]. split; [done|].
    intros m' key. cbn [namespaces]. apply remove_helper_lookup.
  - intros modulename_ n entered ns1 Hres Himp.
    rewrite run_cd, cd_body_unfold. cbv zeta. rewrite Hres, Himp, Hm.
    eexists. split; [done|]. done.
Qed.

Lemma helper_binding_is_guarded_witness :
  (exists w',
     @run_command (@builtin_classes Sample.host) DebugConsole "cd" ["pkg"] Sample.at_main
     = (Ok tt, w')
     /\ namespace_of (namespaces w') 1 !! "help" = None
     /\ namespace_of (namespaces w') 2 !! "help" = Some 9).
Proof.
  destruct (@helper_binding_is_guarded Sample.host Sample.at_main 1 eq_refl)
    as (_ & _ & Hcd).
  destruct (Hcd "pkg" "pkg" 2 (namespaces Sample.at_main) eq_refl eq_refl)
    as (w' & Hrun & _ & Hns).
  exists w'. split; [exact Hrun|]. rewrite Hns. split; vm_compute; reflexivity.
Defined.

(** * The evaluation namespace *)

(** C10: the console's [locals] is the namespace dictionary of the
    current module: reading it yields the current module's dictionary
    and leaves the world alone; assigning to it changes nothing, so it
    reads the same afterwards; the initializer's assignment binds no
    namespace; and after a successful [cd] the console has a current
    module, and it is the dictionary of that module. *)
Theorem locals_is_the_current_namespace `{Host} (w : world) :
  (forall value, set_locals value w = (Ok tt, w))
  /\ (forall value, locals (snd (set_locals value w)) = locals w)
  /\ match module (con w) with
     | Some m => locals w = (Ok m, w)
     | None => exists e, locals w = (Raise e, w) /\ exc_type e = AttributeError
     end
  /\ (forall helper verbose_, module (__init__ helper verbose_) = None)
  /\ (forall args w',
        run_command builtin_classes DebugConsole "cd" args w = (Ok tt, w') ->
        exists m, module (con w') = Some m /\ locals w' = (Ok m, w')).
Proof.
  split; [done|]. split; [done|]. split; [|split; [done|]].
  - unfold locals, bind, get_console. destruct (module (con w)); [done|].
    eexists. split; done.
  - intros args w'. rewrite run_cd.
    assert (forall name, cd_body name w = (Ok tt, w') ->
            exists m, module (con w') = Some m /\ locals w' = (Ok m, w')) as Hcd.
    { intros name. rewrite cd_body_unfold. cbv zeta.
      destruct (resolve_name name (modulename (con w))) as [n|e]; [|done].
      destruct (import_module n (namespaces w)) as [[m|e] ns]; [|done].
      intros [= <-]. exists m. done. }
    destruct args as [|a [|b args]]; [apply Hcd|apply Hcd|done].
Qed.

(** * Column layout *)

Lemma length_spaces (n : nat) : String.length (Str.spaces n) = n.
Proof. induction n as [|n IH]; simpl; [done|by rewrite IH]. Qed.

Lemma substring_skip (a b : string) (n m : nat) :
  String.substring (String.length a + n) m (a +:+ b) = String.substring n m b.
Proof. induction a as [|x a IH]; [done|]. rewrite str_app_cons. simpl. apply IH. Qed.

Lemma substring_take (a b : string) :
  String.substring 0 (String.length a) (a +:+ b) = a.
Proof.
  induction a as [|x a IH]; [by destruct b|].
  rewrite str_app_cons. simpl. by rewrite IH.
Qed.

Lemma max_len_bound (l : list string) (s : string) :
  s ∈ l -> String.length s <= Str.max_len l.
Proof.
  unfold Str.max_len. induction 1 as [s l|s s' l _ IH]; cbn; lia.
Qed.

Lemma length_ljust (width : nat) (s : string) :
  String.length s <= width -> String.length (Str.ljust width s) = width.
Proof. intros Hle. unfold Str.ljust. rewrite str_length_app, length_spaces. lia. Qed.

(** Element [j] of [l[start::step]] is element [start + j * step] of [l]. *)
Lemma slice_step_lookup {A} (l : list A) (start step j : nat) :
  1 <= step ->
  Str.slice_step l start step !! j = l !! (start + j * step).
Proof.
  intros Hstep. revert start j.
  induction l as [|x l IH]; intros start j; [done|].
  destruct start as [|k]; cbn [Str.slice_step].
  - destruct j as [|j']; [done|].
    cbn [lookup list_lookup]. rewrite IH.
    replace (0 + S j' * step) with (S (step - 1 + j' * step)) by lia. done.
  - rewrite IH. done.
Qed.

Lemma rows_positive (n columns : nat) :
  1 <= n -> 1 <= columns -> 1 <= Str.ceil_div n columns.
Proof.
  intros Hn Hc. unfold Str.ceil_div.
  apply (Nat.div_le_lower_bound _ _ 1); lia.
Qed.

Lemma rows_cover (n columns : nat) :
  1 <= columns -> n <= Str.ceil_div n columns * columns.
Proof.
  intros Hc. unfold Str.ceil_div.
  pose proof (Nat.div_mod_eq (n + columns - 1) columns) as Hdm.
  pose proof (Nat.mod_upper_bound (n + columns - 1) columns) as Hmod.
  nia.
Qed.

Lemma join_cons_cons (sep s s' : string) (l : list string) :
  Str.join sep (s :: s' :: l) = s +:+ sep +:+ Str.join sep (s' :: l).
Proof. done. Qed.

(** In a row of cells of one width, the text of cell [j] starts at
    offset [j * (width + 2)] of the joined line. *)
Lemma join_cell_offset (width : nat) (cells : list string) (j : nat)
    (name pad : string) :
  Forall (fun cell => String.length cell = width) cells ->
  cells !! j = Some (name +:+ pad) ->
  String.substring (j * (width + 2)) (String.length name) (Str.join "  " cells) = name.
Proof.
  intros Hall. revert j. induction Hall as [|c0 cs Hc0 _ IH]; intros j Hj; [done|].
  destruct j as [|j'].
  - injection Hj as ->. destruct cs as [|c1 cs].
    + cbn [Str.join]. apply substring_take.
    + rewrite join_cons_cons, str_app_assoc. apply substring_take.
  - cbn [lookup list_lookup] in Hj. destruct cs as [|c1 cs]; [done|].
    rewrite join_cons_cons, <- str_app_assoc.
    replace (S j' * (width + 2)) with (String.length (c0 +:+ "  ") + j' * (width + 2)).
    + rewrite substring_skip. by apply IH.
    + rewrite str_length_app, Hc0. simpl. lia.
Qed.

Lemma rstrip_padding (s : string) :
  exists pad, s = Str.rstrip s +:+ Str.spaces pad.
Proof.
  induction s as [|c s [pad IH]]; [by exists 0|].
  cbn [Str.rstrip]. destruct (Str.rstrip s) as [|c' r] eqn:Hr.
  - unfold Str.is_space. destruct (Ascii.eqb_spec c Str.space) as [->|Hne].
    + exists (S pad). rewrite IH at 1. done.
    + exists pad. rewrite IH at 1. done.
  - exists pad. rewrite IH at 1. done.
Qed.

Lemma rstrip_no_trailing_space (s : string) :
  Str.endswith_char Str.space (Str.rstrip s) = false.
Proof.
  induction s as [|c s IH]; [done|].
  cbn [Str.rstrip]. destruct (Str.rstrip s) as [|c' r] eqn:Hr.
  - unfold Str.is_space. destruct (Ascii.eqb_spec c Str.space) as [->|Hne]; [done|].
    cbn. by apply Ascii.eqb_neq.
  - exact IH.
Qed.

Lemma for_each_print_map {A} (f : A -> string) (l : list A) (w : world) :
  for_each l (fun x => print [f x]) w
  = (Ok tt, emit Stdout (String.concat "" (map (fun x => f x +:+ newline) l)) w).
Proof.
  revert w. induction l as [|x l IH]; intros w.
  - cbn [for_each map String.concat]. by rewrite emit_nil.
  - cbn [for_each map]. unfold bind at 1.
    unfold print, print_to, print_end at 1. rewrite write_emit, IH, emit_emit.
    cbn [Str.join]. by rewrite concat_nil_sep_cons.
Qed.

Lemma row_cells_width (stringlist : list string) (rows y : nat) :
  1 <= rows ->
  Forall (fun cell => String.length cell = Str.max_len stringlist)
    (row_cells stringlist (Str.max_len stringlist) rows y).
Proof.
  intros Hrows. unfold row_cells. apply Forall_forall. intros cell Hin.
  apply list_elem_of_fmap in Hin as (s & -> & Hs).
  apply list_elem_of_lookup in Hs as [j Hj].
  rewrite slice_step_lookup in Hj by done.
  apply length_ljust, max_len_bound. by eapply list_elem_of_lookup_2.
Qed.

(** C7: for a non-empty list of names, with [maxlen] the longest
    name's length, [columns] the number of columns of width
    [maxlen + 2] that fit the terminal and [rows] the rounded-up
    quotient of the list's length by [columns]: with fewer than two
    columns each name is printed on a line of its own; otherwise
    [rows] lines are printed, every cell of a row is padded to
    [maxlen] and cells are two blanks apart, so that name [i] is cell
    [i div rows] of row [i mod rows] and starts at offset
    [(i div rows) * (maxlen + 2)] of that row, within the columns that
    fit; each printed line is its row without the trailing blanks; and
    five names in two columns make three rows. *)
Theorem print_list_layout `{Host} (stringlist : list string) (w : world) :
  stringlist <> [] ->
  let maxlen := Str.max_len stringlist in
  let columns := terminal_columns / (maxlen + 2) in
  let rows := Str.ceil_div (length stringlist) columns in
  (columns < 2 ->
   _print_list stringlist w
   = (Ok tt,
      emit Stdout
        (String.concat "" (map (fun name => name +:+ newline) stringlist)) w))
  /\ (2 <= columns ->
      _print_list stringlist w
      = (Ok tt,
         emit Stdout
           (String.concat ""
              (map (fun y => Str.rstrip (row_line stringlist maxlen rows y) +:+ newline)
                 (seq 0 rows))) w)
      /\ columns * (maxlen + 2) <= terminal_columns
      /\ (forall i name,
            stringlist !! i = Some name ->
            i mod rows < rows
            /\ i / rows < columns
            /\ Str.slice_step stringlist (i mod rows) rows !! (i / rows) = Some name
            /\ String.substring ((i / rows) * (maxlen + 2)) (String.length name)
                 (row_line stringlist maxlen rows (i mod rows)) = name)
      /\ (forall y,
            y < rows ->
            Forall (fun cell => String.length cell = maxlen)
              (row_cells stringlist maxlen rows y)
            /\ (exists pad,
                  row_line stringlist maxlen rows y
                  = Str.rstrip (row_line stringlist maxlen rows y) +:+ Str.spaces pad)
            /\ Str.endswith_char Str.space
                 (Str.rstrip (row_line stringlist maxlen rows y)) = false)
      /\ (length stringlist = 5 -> columns = 2 -> rows = 3)).
Proof.
  intros Hne maxlen columns rows.
  assert (1 <= length stringlist) as Hlen.
  { destruct stringlist; [done|simpl; lia]. }
  split.
  - intros Hlt. unfold _print_list. destruct stringlist as [|s l]; [done|].
    fold maxlen. fold columns.
    destruct (Nat.ltb_spec columns 2) as [_|?]; [|lia].
    apply (for_each_print_map (fun name => name)).
  - intros Hge.
    assert (1 <= rows) as Hrows by (apply rows_positive; lia).
    assert (length stringlist <= rows * columns) as Hcover by (apply rows_cover; lia).
    split; [|split; [|split; [|split]]].
    + unfold _print_list. destruct stringlist as [|s l]; [done|].
      fold maxlen. fold columns. fold rows.
      destruct (Nat.ltb_spec columns 2) as [?|_]; [lia|].
      apply (for_each_print_map
               (fun y => Str.rstrip (row_line (s :: l) maxlen rows y))).
    + subst columns. rewrite Nat.mul_comm. apply Nat.Div0.mul_div_le.
    + intros i name Hi.
      assert (i < length stringlist) as Hilt by (by eapply lookup_lt_Some).
      assert (Str.slice_step stringlist (i mod rows) rows !! (i / rows) = Some name)
        as Hcell.
      { rewrite slice_step_lookup by done.
        replace (i mod rows + i / rows * rows) with i; [done|].
        pose proof (Nat.div_mod_eq i rows). lia. }
      split; [apply Nat.mod_upper_bound; lia|].
      split; [apply Nat.Div0.div_lt_upper_bound; lia|].
      split; [done|].
      unfold row_line.
      apply (join_cell_offset maxlen _ _ name
               (Str.spaces (maxlen - String.length name))).
      * by apply row_cells_width.
      * unfold row_cells. rewrite list_lookup_fmap, Hcell. done.
    + intros y Hy. split; [by apply row_cells_width|].
      split; [apply rstrip_padding|apply rstrip_no_trailing_space].
    + intros H5 H2. subst rows. by rewrite H5, H2.
Qed.

Lemma print_list_layout_witness :
  @_print_list Sample.host ["alpha"; "b"; "gamma"; "delta"; "e"] Sample.fresh
  = (Ok tt,
     emit Stdout
       ("alpha  delta" +:+ newline +:+ "b      e" +:+ newline +:+ "gamma" +:+ newline)
       Sample.fresh).
Proof.
  destruct (@print_list_layout Sample.host ["alpha"; "b"; "gamma"; "delta"; "e"]
              Sample.fresh) as [_ Hcols]; [discriminate|].
  destruct Hcols as [Hprint _]; [vm_compute; lia|].
  rewrite Hprint. vm_compute. reflexivity.
Defined.

(** * The class-level mappings *)

Lemma deref_lt (h : list mapping) (l : loc) (o : mapping) :
  deref h l = Some o -> l < length h.
Proof.
  induction h as [|o' h IH]; [done|]. cbn [deref length].
  destruct (Nat.eqb_spec l (length h)) as [->|Hne]; [lia|].
  intros Hd. apply IH in Hd. lia.
Qed.

Lemma deref_cons_old (o : mapping) (h : list mapping) (l : loc) :
  l < length h -> deref (o :: h) l = deref h l.
Proof.
  intros Hlt. cbn [deref]. destruct (Nat.eqb_spec l (length h)); [lia|done].
Qed.

Lemma deref_cons_new (o : mapping) (h : list mapping) :
  deref (o :: h) (length h) = Some o.
Proof. cbn [deref]. by rewrite Nat.eqb_refl. Qed.

(** Looking a key up in the object at [l], in terms of that object. *)
Lemma getitem_unfold (h : list mapping) (l : loc) (key : string) (o : mapping) :
  deref h l = Some o ->
  getitem h l key =
    match o with
    | Dict d => d !! key
    | ChainMap first parent =>
        match first !! key with
        | Some c => Some c
        | None => if decide (parent < l) then getitem h parent key else None
        end
    end
  \/ (exists first parent, o = ChainMap first parent /\ ~ parent < l).
Proof.
  induction h as [|o' h IH]; [done|]. cbn [deref getitem].
  destruct (Nat.eqb_spec l (length h)) as [->|Hne].
  - intros [= ->]. destruct o as [d|first parent]; [by left|].
    destruct (decide (parent < length h)) as [Hlt|Hge]; [|right; eauto].
    left. destruct (first !! key); [done|].
    destruct (Nat.eqb_spec parent (length h)); [lia|done].
  - intros Hd. pose proof (deref_lt _ _ _ Hd) as Hl.
    destruct (IH Hd) as [->|?]; [|by right]. left.
    destruct o as [d|first parent]; [done|].
    destruct (first !! key); [done|].
    destruct (decide (parent < l)); [|done].
    destruct (Nat.eqb_spec parent (length h)); [lia|done].
Qed.

Lemma getitem_dict (h : list mapping) (l : loc) (key : string) (d : gmap string Command) :
  deref h l = Some (Dict d) -> getitem h l key = d !! key.
Proof.
  intros Hd. destruct (getitem_unfold h l key _ Hd) as [->|(? & ? & ? & _)]; done.
Qed.

Lemma getitem_chain (h : list mapping) (l : loc) (key : string)
    (first : gmap string Command) (parent : loc) :
  deref h l = Some (ChainMap first parent) ->
  parent < l ->
  getitem h l key =
    match first !! key with
    | Some c => Some c
    | None => getitem h parent key
    end.
Proof.
  intros Hd Hlt. destruct (getitem_unfold h l key _ Hd) as [->|(? & ? & [= _ <-] & ?)];
    [|done].
  by rewrite decide_True.
Qed.

Lemma length_setitem (h : list mapping) (l : loc) (key : string) (value : Command) :
  length (setitem h l key value) = length h.
Proof.
  induction h as [|o h IH]; [done|]. cbn [setitem].
  destruct (l =? length h); cbn [length]; [done|by rewrite IH].
Qed.

Lemma deref_setitem (h : list mapping) (l l' : loc) (key : string) (value : Command) :
  deref (setitem h l key value) l' =
    if decide (l' = l) then (fun o => store o key value) <$> deref h l'
    else deref h l'.
Proof.
  induction h as [|o h IH]; [by case_decide|]. cbn [setitem].
  destruct (Nat.eqb_spec l (length h)) as [->|Hne]; cbn [deref].
  - destruct (Nat.eqb_spec l' (length h)) as [->|Hne'].
    + by rewrite decide_True.
    + by rewrite decide_False.
  - rewrite length_setitem.
    destruct (Nat.eqb_spec l' (length h)) as [->|Hne'].
    + by rewrite decide_False.
    + apply IH.
Qed.

Lemma proper_base_shorter (a c : cls) : proper_base a c -> length a < length c.
Proof.
  intros [[pre ->] Hne]. rewrite length_app.
  destruct pre as [|x pre]; [done|]. simpl. lia.
Qed.

(** [cls.commands] is the own mapping of the class or of a base class. *)
Lemma commands_owner (k : classes) (c : cls) (l : loc) :
  commands k c = Some l ->
  exists a, a `suffix_of` c /\ own_commands k !! a = Some l.
Proof.
  induction c as [|n base IH]; cbn [commands].
  - destruct (own_commands k !! []) eqn:Hown; [|done].
    intros [= <-]. exists []. split; [reflexivity|done].
  - destruct (own_commands k !! (n :: base)) eqn:Hown.
    + intros [= <-]. exists (n :: base). split; [reflexivity|done].
    + intros (a & Hsuf & Ha)%IH. exists a. split; [by apply suffix_cons_r|done].
Qed.

Lemma commands_is_Some (k : classes) (c : cls) :
  is_Some (own_commands k !! DebugConsole) -> is_Some (commands k c).
Proof.
  intros [l0 H0]. induction c as [|n base IH]; cbn [commands].
  - unfold DebugConsole in H0. by rewrite H0.
  - by destruct (own_commands k !! (n :: base)).
Qed.

Lemma commands_own (k : classes) (c : cls) (l : loc) :
  own_commands k !! c = Some l -> commands k c = Some l.
Proof. intros Hown. destruct c; cbn [commands]; by rewrite Hown. Qed.

(** Classes whose own entries and base classes' entries agree in two
    states have the same [commands] attribute. *)
Lemma commands_agree (k k' : classes) (c : cls) :
  (forall a, a `suffix_of` c -> own_commands k' !! a = own_commands k !! a) ->
  commands k' c = commands k c.
Proof.
  induction c as [|n base IH]; intros Hagree; cbn [commands].
  - by rewrite (Hagree []).
  - rewrite (Hagree (n :: base)) by done.
    rewrite IH; [done|]. intros a Ha. apply Hagree. by apply suffix_cons_r.
Qed.

Lemma wf_bound (k : classes) (c : cls) (l : loc) :
  wf k -> own_commands k !! c = Some l -> l < length (heap k).
Proof.
  intros Hwf Hown. destruct (wf_obj k Hwf c l Hown) as (o & Hd & _).
  by eapply deref_lt.
Qed.

Lemma wf_initial : wf initial_classes.
Proof.
  split.
  - by exists 0.
  - intros c1 c2 l. cbn [initial_classes own_commands].
    intros [<- _]%lookup_singleton_Some [<- _]%lookup_singleton_Some. done.
  - intros c l. cbn [initial_classes own_commands heap].
    intros [<- <-]%lookup_singleton_Some. by exists (Dict ∅).
Qed.

(** The first write on a class without a mapping of its own. *)
Lemma wf_new_layer (k : classes) (c : cls) (inherited : loc) :
  wf k ->
  own_commands k !! c = None ->
  commands k c = Some inherited ->
  wf (Classes (ChainMap ∅ inherited :: heap k)
              (<[c := length (heap k)]> (own_commands k))).
Proof.
  intros Hwf Hnone Hinh.
  destruct (commands_owner _ _ _ Hinh) as (a & Hsuf & Ha).
  assert (a <> c) as Hac by (intros ->; congruence).
  assert (c <> DebugConsole) as Hc.
  { intros ->. destruct (wf_base k Hwf) as [? ?]. congruence. }
  split; cbn [own_commands heap].
  - rewrite lookup_insert_ne by done. apply (wf_base k Hwf).
  - intros c1 c2 l.
    rewrite !lookup_insert. repeat case_decide; subst; try done.
    + intros [= <-] H2. apply (wf_bound k _ _ Hwf) in H2. lia.
    + intros H1 [= <-]. apply (wf_bound k _ _ Hwf) in H1. lia.
    + apply (wf_inj k Hwf).
  - intros c' l. rewrite lookup_insert. case_decide as Hcc.
    + subst c'. intros [= <-]. exists (ChainMap ∅ inherited).
      split; [apply deref_cons_new|].
      split; [done|]. split; [by eapply wf_bound|].
      exists a. split; [done|]. by rewrite lookup_insert_ne.
    + intros Hown. destruct (wf_obj k Hwf c' l Hown) as (o & Hd & Ho).
      exists o. split.
      * rewrite deref_cons_old; [done|]. by eapply deref_lt.
      * destruct o as [d|first p]; [done|].
        destruct Ho as (Hne & Hlt & b & Hb & Hbown).
        repeat split; try done. exists b. split; [done|].
        rewrite lookup_insert_ne; [done|]. intros <-. congruence.
Qed.

Lemma wf_setitem (k : classes) (l : loc) (key : string) (value : Command) :
  wf k -> wf (Classes (setitem (heap k) l key value) (own_commands k)).
Proof.
  intros Hwf. split; cbn [own_commands heap].
  - apply (wf_base k Hwf).
  - apply (wf_inj k Hwf).
  - intros c l' Hown. destruct (wf_obj k Hwf c l' Hown) as (o & Hd & Ho).
    rewrite deref_setitem, Hd. case_decide.
    + exists (store o key value). split; [done|]. by destruct o.
    + by exists o.
Qed.

Lemma wf_ensure (k : classes) (c : cls) :
  wf k -> wf (snd (ensure_own_commands c k)).
Proof.
  intros Hwf. unfold ensure_own_commands.
  destruct (own_commands k !! c) eqn:Hown; [done|].
  destruct (commands k c) eqn:Hinh; [|done].
  by apply wf_new_layer.
Qed.

Lemma ensure_ok (k : classes) (c : cls) :
  wf k -> fst (ensure_own_commands c k) = Ok tt.
Proof.
  intros Hwf. unfold ensure_own_commands.
  destruct (own_commands k !! c); [done|].
  by destruct (commands_is_Some k c (wf_base k Hwf)) as [l ->].
Qed.

Lemma ensure_owned (k : classes) (c : cls) :
  wf k -> is_Some (own_commands (snd (ensure_own_commands c k)) !! c).
Proof.
  intros Hwf. unfold ensure_own_commands.
  destruct (own_commands k !! c) eqn:Hown; [cbn [snd]; by rewrite Hown|].
  destruct (commands_is_Some k c (wf_base k Hwf)) as [l ->].
  cbn [snd own_commands]. by rewrite lookup_insert_eq.
Qed.

(** [command] in terms of its two steps. *)
Lemma command_unfold (k : classes) (c : cls) (func : pyfunction) :
  wf k ->
  exists l,
    own_commands (snd (ensure_own_commands c k)) !! c = Some l
    /\ command c func k =
       match scan_parameters (__name__ func) (tail (parameters func)) [] [] with
       | Raise e => (Raise e, snd (ensure_own_commands c k))
       | Ok (reqargs, optargs) =>
           (Ok tt,
            Classes
              (setitem (heap (snd (ensure_own_commands c k))) l (__name__ func)
                 (mkCommand func reqargs optargs (__doc__ func)))
              (own_commands (snd (ensure_own_commands c k))))
       end.
Proof.
  intros Hwf. destruct (ensure_owned k c Hwf) as [l Hl]. exists l. split; [done|].
  unfold command. pose proof (ensure_ok k c Hwf) as Hok.
  destruct (ensure_own_commands c k) as [[[]|e] k1]; [|done].
  cbn [snd] in *.
  destruct (scan_parameters _ _ _ _) as [[req opt]|e]; [|done].
  by rewrite (commands_own _ _ _ Hl).
Qed.

Lemma wf_command (k : classes) (c : cls) (func : pyfunction) :
  wf k -> wf (snd (command c func k)).
Proof.
  intros Hwf. destruct (command_unfold k c func Hwf) as (l & _ & ->).
  pose proof (wf_ensure k c Hwf) as Hwf1.
  destruct (scan_parameters _ _ _ _) as [[req opt]|e]; [|done].
  by apply wf_setitem.
Qed.

Lemma reachable_wf (k : classes) : reachable k -> wf k.
Proof. induction 1; [apply wf_initial|by apply wf_command]. Qed.

(** Lookups through the mappings of classes below a length bound only
    depend on the objects those classes own. *)
Lemma getitem_frame (k : classes) (h' : list mapping) (bound : nat) (key : string) :
  wf k ->
  (forall a l, length a < bound -> own_commands k !! a = Some l ->
               deref h' l = deref (heap k) l) ->
  forall l a, length a < bound -> own_commands k !! a = Some l ->
              getitem h' l key = getitem (heap k) l key.
Proof.
  intros Hwf Hsame l. induction l as [l IH] using lt_wf_ind. intros a Ha Hown.
  destruct (wf_obj k Hwf a l Hown) as (o & Hd & Ho).
  pose proof (Hsame a l Ha Hown) as Hd'. rewrite Hd in Hd'.
  destruct o as [d|first p].
  - by rewrite (getitem_dict _ _ _ _ Hd), (getitem_dict _ _ _ _ Hd').
  - destruct Ho as (_ & Hlt & b & Hb & Hbown).
    rewrite (getitem_chain _ _ _ _ _ Hd Hlt), (getitem_chain _ _ _ _ _ Hd' Hlt).
    destruct (first !! key); [done|].
    apply (IH p Hlt b); [|done]. apply proper_base_shorter in Hb. lia.
Qed.

Lemma ensure_frame (k : classes) (c : cls) :
  wf k ->
  (forall a, a <> c ->
             own_commands (snd (ensure_own_commands c k)) !! a = own_commands k !! a)
  /\ (forall l, l < length (heap k) ->
                deref (heap (snd (ensure_own_commands c k))) l = deref (heap k) l).
Proof.
  intros Hwf. unfold ensure_own_commands.
  destruct (own_commands k !! c) eqn:Hown; [done|].
  destruct (commands k c) eqn:Hinh; [|done]. cbn [snd own_commands heap]. split.
  - intros a Hne. by rewrite lookup_insert_ne.
  - intros l' Hl. by apply deref_cons_old.
Qed.

(** Registering on a class leaves what its shorter-named classes, in
    particular all its base classes, look up. *)
Lemma command_frame (k : classes) (c a : cls) (func : pyfunction) (key : string) :
  wf k ->
  length a < length c ->
  lookup_command (snd (command c func k)) a key = lookup_command k a key.
Proof.
  intros Hwf Ha.
  destruct (command_unfold k c func Hwf) as (l & Hl & Heq).
  destruct (ensure_frame k c Hwf) as [Hown1 Hderef1].
  pose proof (wf_ensure k c Hwf) as Hwf1.
  set (k1 := snd (ensure_own_commands c k)) in *.
  assert (own_commands (snd (command c func k)) = own_commands k1) as Hown'.
  { rewrite Heq. by destruct (scan_parameters _ _ _ _) as [[req opt]|e]. }
  assert (forall a' l', length a' < length c -> own_commands k !! a' = Some l' ->
                        deref (heap (snd (command c func k))) l' = deref (heap k) l')
    as Hderef'.
  { intros a' l' Ha' Hown.
    assert (a' <> c) as Hne by (intros ->; lia).
    pose proof (wf_bound k _ _ Hwf Hown) as Hbound.
    rewrite Heq. destruct (scan_parameters _ _ _ _) as [[req opt]|e]; cbn [snd heap].
    - rewrite deref_setitem. rewrite decide_False; [by apply Hderef1|].
      intros ->. apply Hne. apply (wf_inj k1 Hwf1 a' c l); [|done].
      by rewrite Hown1.
    - by apply Hderef1. }
  unfold lookup_command.
  assert (commands (snd (command c func k)) a = commands k a) as ->.
  { apply commands_agree. intros a' Hsuf. rewrite Hown'. apply Hown1.
    intros ->. apply suffix_length in Hsuf. lia. }
  destruct (commands k a) as [la|] eqn:Hla; [|done].
  destruct (commands_owner _ _ _ Hla) as (a' & Hsuf & Hown).
  apply (getitem_frame k _ (length c) key Hwf Hderef' la a'); [|done].
  apply suffix_length in Hsuf. lia.
Qed.

(** Layering as far as it holds.  After a registration on a derived
    class [n :: base], in any class state that registrations have
    produced, the class's mapping
    is a layer of its own chained to a parent mapping; a lookup through
    the derived class returns the derived layer's descriptor when the
    layer has the name and otherwise what the parent mapping returns;
    when the layer was created by this registration, the parent mapping
    is the base class's, so that the fall-through is the base class's
    lookup; a successful registration puts the new descriptor into the
    derived layer; and no lookup through a base class has changed. *)
Theorem derived_registry_layering (k : classes) (n : string) (base : cls)
    (func : pyfunction) :
  reachable k ->
  let c := n :: base in
  let k' := snd (command c func k) in
  exists l first parent,
    own_commands k' !! c = Some l
    /\ deref (heap k') l = Some (ChainMap first parent)
    /\ (forall key,
          lookup_command k' c key =
            match first !! key with
            | Some descriptor => Some descriptor
            | None => getitem (heap k') parent key
            end)
    /\ (own_commands k !! c = None ->
        forall key, getitem (heap k') parent key = lookup_command k' base key)
    /\ (forall reqargs optargs,
          scan_parameters (__name__ func) (tail (parameters func)) [] []
          = Ok (reqargs, optargs) ->
          fst (command c func k) = Ok tt
          /\ first !! __name__ func
             = Some (mkCommand func reqargs optargs (__doc__ func)))
    /\ (forall a key,
          proper_base a c -> lookup_command k' a key = lookup_command k a key).
Proof.
  intros Hreach c k'. pose proof (reachable_wf k Hreach) as Hwf.
  destruct (command_unfold k c func Hwf) as (l & Hl & Heq).
  destruct (ensure_frame k c Hwf) as [Hown1 Hderef1].
  pose proof (wf_ensure k c Hwf) as Hwf1.
  pose proof (wf_command k c func Hwf) as Hwf'. fold k' in Hwf'.
  assert (own_commands k' = own_commands (snd (ensure_own_commands c k))) as Hown'.
  { subst k'. rewrite Heq. by destruct (scan_parameters _ _ _ _) as [[req opt]|e]. }
  assert (own_commands k' !! c = Some l) as Hl' by (by rewrite Hown').
  destruct (wf_obj k' Hwf' c l Hl') as (o & Hd & Ho).
  destruct o as [d|first parent]; [done|].
  destruct Ho as (_ & Hlt & _).
  exists l, first, parent. split; [done|]. split; [done|]. split; [|split; [|split]].
  - intros key. unfold lookup_command. rewrite (commands_own _ _ _ Hl').
    by apply getitem_chain.
  - intros Hnone key.
    assert (commands k base = Some parent) as Hparent.
    { revert Hd. subst k'. rewrite Heq. revert Hl.
      unfold ensure_own_commands. rewrite Hnone.
      assert (commands k c = commands k base) as Hcb.
      { subst c. cbn [commands]. by rewrite Hnone. }
      rewrite Hcb.
      destruct (commands_is_Some k base (wf_base k Hwf)) as [inherited Hinh].
      rewrite Hinh. cbn [snd own_commands heap]. rewrite lookup_insert_eq.
      intros [= <-].
      destruct (scan_parameters _ _ _ _) as [[req opt]|e]; cbn [snd heap].
      - rewrite deref_setitem, decide_True by done. rewrite deref_cons_new.
        by intros [= _ <-].
      - rewrite deref_cons_new. by intros [= _ <-]. }
    unfold lookup_command.
    assert (commands k' base = commands k base) as ->; [|by rewrite Hparent].
    apply commands_agree. intros a Hsuf. rewrite Hown'. apply Hown1.
    intros ->. apply suffix_length in Hsuf. subst c. simpl in Hsuf. lia.
  - intros req opt Hscan. revert Hd. subst k'. rewrite Heq, Hscan. cbn [fst snd heap].
    split; [done|]. revert Hd. rewrite deref_setitem, decide_True by done.
    destruct (deref _ l) as [[d|first1 parent1]|]; cbn; [done| |done].
    intros [= <- _]. by rewrite lookup_insert_eq.
  - intros a key Hbase. apply command_frame; [done|]. by apply proper_base_shorter.
Qed.

Lemma reachable_builtin `{Host} : reachable builtin_classes.
Proof.
  unfold builtin_classes, _setup_commands.
  repeat apply reachable_command. apply reachable_initial.
Qed.

Lemma derived_registry_layering_witness :
  let k := @builtin_classes Sample.host in
  let k' := snd (command Sample.MyConsole Sample.boom k) in
  reachable k
  /\ exists l first parent,
       deref (heap k') l = Some (ChainMap first parent)
       /\ first !! "boom" = Some (mkCommand Sample.boom [] [] None)
       /\ (forall key,
             first !! key = None ->
             lookup_command k' Sample.MyConsole key = lookup_command k' DebugConsole key)
       /\ lookup_command k' DebugConsole "boom" = lookup_command k DebugConsole "boom".
Proof.
  intros k k'. split; [apply reachable_builtin|].
  destruct (derived_registry_layering k "MyConsole" DebugConsole Sample.boom
              (@reachable_builtin Sample.host))
    as (l & first & parent & _ & Hd & Hlook & Hparent & Hnew & Hbase).
  exists l, first, parent. split; [exact Hd|].
  destruct (Hnew [] [] eq_refl) as [_ Hboom]. split; [exact Hboom|].
  split.
  - intros key Hkey.
    transitivity (match first !! key with
                  | Some descriptor => Some descriptor
                  | None => getitem (heap k') parent key
                  end); [exact (Hlook key)|].
    rewrite Hkey. apply Hparent. vm_compute. reflexivity.
  - apply Hbase. split; [by exists ["MyConsole"]|discriminate].
Defined.

(** A layer whose base class had its own mapping first is chained to
    that mapping. *)
Lemma older_base_is_the_parent (k : classes) :
  reachable k ->
  forall n base l lb first parent,
    own_commands k !! (n :: base) = Some l ->
    own_commands k !! base = Some lb ->
    lb < l ->
    deref (heap k) l = Some (ChainMap first parent) ->
    parent = lb.
Proof.
  induction 1 as [|c func k Hreach IH].
  { intros n base l lb first parent. cbn [initial_classes own_commands].
    by intros [? _]%lookup_singleton_Some. }
  pose proof (reachable_wf k Hreach) as Hwf.
  destruct (command_unfold k c func Hwf) as (lc & Hlc & Heq).
  assert (forall n base l lb first parent,
            own_commands (snd (ensure_own_commands c k)) !! (n :: base) = Some l ->
            own_commands (snd (ensure_own_commands c k)) !! base = Some lb ->
            lb < l ->
            deref (heap (snd (ensure_own_commands c k))) l
            = Some (ChainMap first parent) ->
            parent = lb) as IH1.
  { unfold ensure_own_commands.
    destruct (own_commands k !! c) eqn:Hnone; [exact IH|].
    destruct (commands k c) as [inherited|] eqn:Hinh; [|exact IH].
    cbn [snd own_commands heap]. intros n base l lb first parent.
    rewrite !lookup_insert.
    destruct (decide (c = n :: base)) as [->|Hne].
    - intros [= <-]. rewrite decide_False by (intros Hb; by apply (f_equal length) in Hb; simpl in Hb; lia).
      intros Hlb _. rewrite deref_cons_new. intros [= _ <-].
      cbn [commands] in Hinh. rewrite Hnone in Hinh.
      rewrite (commands_own _ _ _ Hlb) in Hinh. by injection Hinh.
    - intros Hl. pose proof (wf_bound k _ _ Hwf Hl) as Hbound.
      destruct (decide (c = base)) as [->|Hnb].
      + intros [= <-]. lia.
      + intros Hlb Hlt. rewrite deref_cons_old by done.
        by apply (IH n base l lb first parent). }
  rewrite Heq. destruct (scan_parameters _ _ _ _) as [[req opt]|e]; [|exact IH1].
  cbn [snd own_commands heap]. intros n base l lb first parent Hl Hlb Hlt.
  rewrite deref_setitem. intros Hstored.
  destruct (deref (heap (snd (ensure_own_commands c k))) l) as [o|] eqn:Hd;
    [|by case_decide].
  assert (exists first0, o = ChainMap first0 parent) as [first0 ->].
  { case_decide; cbn in Hstored; [destruct o; cbn in Hstored|];
      simplify_eq; eauto. }
  exact (IH1 n base l lb first0 parent Hl Hlb Hlt Hd).
Qed.

(** Where the layering is transparent: in every class state that
    registrations have produced, a derived class whose own layer is
    younger than its base class's own mapping looks a name up in its
    layer and then in the base class.  The base class [DebugConsole]
    always has its own mapping first. *)
Lemma layering_under_an_older_base (k : classes) (n : string) (base : cls)
    (l lb : loc) :
  reachable k ->
  own_commands k !! (n :: base) = Some l ->
  own_commands k !! base = Some lb ->
  lb < l ->
  exists first,
    deref (heap k) l = Some (ChainMap first lb)
    /\ forall key,
         lookup_command k (n :: base) key =
           match first !! key with
           | Some descriptor => Some descriptor
           | None => lookup_command k base key
           end.
Proof.
  intros Hreach Hl Hlb Hlt. pose proof (reachable_wf k Hreach) as Hwf.
  destruct (wf_obj k Hwf _ l Hl) as (o & Hd & Ho).
  destruct o as [d|first parent]; [done|].
  pose proof (older_base_is_the_parent k Hreach n base l lb first parent Hl Hlb Hlt Hd)
    as ->.
  exists first. split; [done|]. intros key. unfold lookup_command.
  rewrite (commands_own _ _ _ Hl), (commands_own _ _ _ Hlb).
  by apply getitem_chain.
Qed.

(** C5: the layering is not transparent in every state.  [Leaf] is a
    subclass of [Middle], and registers [boom] before [Middle]
    registers [quit]: the layer of [Leaf] was chained to the mapping of
    [DebugConsole], which [Middle] still shared then, and stays chained
    to it when [Middle] gets its own layer.  So [quit], a command of
    the parent class [Middle], is not found through [Leaf], although
    the source says of the subclass mapping that it gets the commands
    of the parent class; the commands of [DebugConsole] are found. *)
Remark late_layer_is_not_seen :
  lookup_command Sample.late_classes Sample.Leaf "quit" = None
  /\ lookup_command Sample.late_classes Sample.Middle "quit"
     = Some (mkCommand Sample.quit [] [] None)
  /\ lookup_command Sample.late_classes Sample.Leaf "cd"
     = lookup_command Sample.late_classes DebugConsole "cd".
Proof. repeat split; reflexivity. Qed.

(** * Registration: further properties *)

Lemma getitem_cons_old_loc (o : mapping) (h : list mapping) (l : loc) (key : string) :
  l < length h -> getitem (o :: h) l key = getitem h l key.
Proof.
  intros Hlt. cbn [getitem]. destruct (Nat.eqb_spec l (length h)); [lia|done].
Qed.

(** Creating a class's own layer changes no lookup, through any class. *)
Lemma lookup_ensure (k : classes) (c a : cls) (key : string) :
  wf k ->
  lookup_command (snd (ensure_own_commands c k)) a key = lookup_command k a key.
Proof.
  intros Hwf. unfold ensure_own_commands.
  destruct (own_commands k !! c) eqn:Hnone; [done|].
  destruct (commands k c) as [inherited|] eqn:Hinh; [|done].
  cbn [snd]. unfold lookup_command. cbn [heap].
  induction a as [|n base IH].
  - cbn [commands own_commands].
    destruct (decide (c = [])) as [->|Hne].
    { destruct (wf_base k Hwf) as [? Hb]. unfold DebugConsole in Hb. congruence. }
    rewrite lookup_insert_ne by done.
    destruct (own_commands k !! []) as [l|] eqn:Hl; [|done].
    apply getitem_cons_old_loc. by eapply wf_bound.
  - cbn [commands own_commands].
    destruct (decide (c = n :: base)) as [->|Hne].
    + rewrite lookup_insert_eq, Hnone.
      cbn [commands] in Hinh. rewrite Hnone in Hinh. rewrite Hinh.
      cbn [getitem]. rewrite Nat.eqb_refl. by rewrite lookup_empty.
    + rewrite lookup_insert_ne by done.
      destruct (own_commands k !! (n :: base)) as [l|] eqn:Hl; [|exact IH].
      apply getitem_cons_old_loc. by eapply wf_bound.
Qed.

(** Lookups through the mappings of a family of classes closed under
    base classes only depend on the objects those classes own. *)
Lemma getitem_frame_family (P : cls -> Prop) (k : classes) (h' : list mapping)
    (key : string) :
  wf k ->
  (forall a b, P a -> proper_base b a -> P b) ->
  (forall a l, P a -> own_commands k !! a = Some l -> deref h' l = deref (heap k) l) ->
  forall l a, P a -> own_commands k !! a = Some l ->
              getitem h' l key = getitem (heap k) l key.
Proof.
  intros Hwf Hclosed Hsame l. induction l as [l IH] using lt_wf_ind.
  intros a Ha Hown.
  destruct (wf_obj k Hwf a l Hown) as (o & Hd & Ho).
  pose proof (Hsame a l Ha Hown) as Hd'. rewrite Hd in Hd'.
  destruct o as [d|first p].
  - by rewrite (getitem_dict _ _ _ _ Hd), (getitem_dict _ _ _ _ Hd').
  - destruct Ho as (_ & Hlt & b & Hb & Hbown).
    rewrite (getitem_chain _ _ _ _ _ Hd Hlt), (getitem_chain _ _ _ _ _ Hd' Hlt).
    destruct (first !! key); [done|].
    apply (IH p Hlt b); [by eapply Hclosed|done].
Qed.

(** Writing into the own mapping of [c] leaves the lookups through
    every class that is neither [c] nor a subclass of [c]. *)
Lemma lookup_setitem_other (k : classes) (c a : cls) (l : loc) (name key : string)
    (value : Command) :
  wf k ->
  own_commands k !! c = Some l ->
  ~ c `suffix_of` a ->
  lookup_command (Classes (setitem (heap k) l name value) (own_commands k)) a key
  = lookup_command k a key.
Proof.
  intros Hwf Hl Hnot. unfold lookup_command. cbn [heap].
  assert (commands (Classes (setitem (heap k) l name value) (own_commands k)) a
          = commands k a) as -> by (by apply commands_agree).
  destruct (commands k a) as [la|] eqn:Hla; [|done].
  destruct (commands_owner _ _ _ Hla) as (a' & Hsuf & Hown).
  apply (getitem_frame_family (fun b => ~ c `suffix_of` b) k _ key Hwf) with a'.
  - intros b1 b2 Hb1 [Hb2 _] Hc. apply Hb1. by etrans.
  - intros b lb Hb Hownb. rewrite deref_setitem, decide_False; [done|].
    intros ->. apply Hb. by rewrite (wf_inj k Hwf b c l Hownb Hl).
  - intros Hc. apply Hnot. by etrans.
  - done.
Qed.

(** Writing into the own mapping of [c], seen through [c] itself. *)
Lemma lookup_setitem_own (k : classes) (c : cls) (l : loc) (name key : string)
    (value : Command) :
  wf k ->
  own_commands k !! c = Some l ->
  lookup_command (Classes (setitem (heap k) l name value) (own_commands k)) c key
  = if decide (key = name) then Some value else lookup_command k c key.
Proof.
  intros Hwf Hl. unfold lookup_command.
  rewrite (commands_own (Classes (setitem (heap k) l name value) (own_commands k))
             c l Hl), (commands_own k c l Hl). cbn [heap].
  destruct (wf_obj k Hwf c l Hl) as (o & Hd & Ho).
  assert (deref (setitem (heap k) l name value) l = Some (store o name value)) as Hd'.
  { by rewrite deref_setitem, decide_True, Hd. }
  destruct o as [d|first p]; cbn [store] in Hd'.
  - rewrite (getitem_dict _ _ _ _ Hd), (getitem_dict _ _ _ _ Hd').
    rewrite lookup_insert. by repeat case_decide.
  - destruct Ho as (_ & Hlt & b & Hb & Hbown).
    rewrite (getitem_chain _ _ _ _ _ Hd Hlt), (getitem_chain _ _ _ _ _ Hd' Hlt).
    rewrite lookup_insert.
    destruct (decide (name = key)) as [->|Hne].
    + by rewrite decide_True.
    + rewrite decide_False by done.
      destruct (first !! key); [done|].
      apply (getitem_frame k _ (length c) key Hwf) with b.
      * intros a la Ha Hown. rewrite deref_setitem, decide_False; [done|].
        intros ->. rewrite (wf_inj k Hwf a c l Hown Hl) in Ha. lia.
      * by apply proper_base_shorter.
      * done.
Qed.

(** X1: in any class state that registrations have produced, a
    registration whose signature is accepted, with required names
    [reqargs] and optional names [optargs], succeeds, and afterwards a
    lookup through the class finds the new descriptor under the
    function's name (replacing whatever the name found before) and
    finds under every other name what it found before. *)
Theorem register_then_lookup (k : classes) (c : cls) (func : pyfunction)
    (reqargs optargs : list string) :
  reachable k ->
  scan_parameters (__name__ func) (tail (parameters func)) [] [] = Ok (reqargs, optargs) ->
  fst (command c func k) = Ok tt
  /\ forall key,
       lookup_command (snd (command c func k)) c key =
         if decide (key = __name__ func)
         then Some (mkCommand func reqargs optargs (__doc__ func))
         else lookup_command k c key.
Proof.
  intros Hreach Hscan. pose proof (reachable_wf k Hreach) as Hwf.
  destruct (command_unfold k c func Hwf) as (l & Hl & Heq).
  rewrite Heq, Hscan. cbn [fst snd]. split; [done|]. intros key.
  rewrite (lookup_setitem_own _ c l) by (by apply wf_ensure || done).
  case_decide; [done|]. by apply lookup_ensure.
Qed.

Lemma register_then_lookup_witness :
  lookup_command
    (snd (command Sample.MyConsole SampleSession.two (@builtin_classes Sample.host)))
    Sample.MyConsole "two"
  = Some (mkCommand SampleSession.two ["a"] ["b"] (Some "Take one or two.")).
Proof.
  destruct (register_then_lookup (@builtin_classes Sample.host) Sample.MyConsole
              SampleSession.two ["a"] ["b"] (@reachable_builtin Sample.host) eq_refl)
    as [_ Hlook].
  exact (Hlook "two").
Defined.

Lemma scan_unsupported (fname : string) (params : list param) (req opt : list string) :
  Exists (fun p => kind p <> POSITIONAL_OR_KEYWORD) params ->
  exists e, scan_parameters fname params req opt = Raise e /\ exc_type e = TypeError.
Proof.
  intros Hex. revert req opt.
  induction Hex as [p params Hp|p params _ IH]; intros req opt; cbn [scan_parameters].
  - rewrite bool_decide_eq_false_2 by done. by eexists.
  - case_bool_decide; [|by eexists]. destruct (param_default p); apply IH.
Qed.

(** X2: registering a function that has, after the console, a parameter
    of another kind than positional-or-keyword raises [TypeError], and
    no lookup through any class has changed, although the class may
    have got its own, still empty, layer. *)
Theorem unsupported_signature_registers_nothing (k : classes) (c : cls)
    (func : pyfunction) :
  reachable k ->
  Exists (fun p => kind p <> POSITIONAL_OR_KEYWORD) (tail (parameters func)) ->
  exists e,
    fst (command c func k) = Raise e
    /\ exc_type e = TypeError
    /\ forall a key,
         lookup_command (snd (command c func k)) a key = lookup_command k a key.
Proof.
  intros Hreach Hex. pose proof (reachable_wf k Hreach) as Hwf.
  destruct (command_unfold k c func Hwf) as (l & Hl & Heq).
  destruct (scan_unsupported (__name__ func) _ [] [] Hex) as (e & Hscan & He).
  exists e. rewrite Heq, Hscan. cbn [fst snd].
  split; [done|]. split; [done|]. intros a key. by apply lookup_ensure.
Qed.

Lemma unsupported_signature_registers_nothing_witness :
  exists e,
    fst (command Sample.MyConsole SampleSession.variadic (@builtin_classes Sample.host))
    = Raise e
    /\ exc_type e = TypeError.
Proof.
  destruct (unsupported_signature_registers_nothing (@builtin_classes Sample.host)
              Sample.MyConsole SampleSession.variadic (@reachable_builtin Sample.host))
    as (e & He & Hty & _).
  - apply Exists_cons_hd. discriminate.
  - exists e. split; [exact He|exact Hty].
Defined.

Lemma command_other (k : classes) (c a : cls) (func : pyfunction) (key : string) :
  wf k ->
  ~ c `suffix_of` a ->
  lookup_command (snd (command c func k)) a key = lookup_command k a key.
Proof.
  intros Hwf Hnot.
  destruct (command_unfold k c func Hwf) as (l & Hl & Heq). rewrite Heq.
  destruct (scan_parameters _ _ _ _) as [[req opt]|e]; cbn [snd].
  - rewrite (lookup_setitem_other _ c a l) by (by apply wf_ensure || done).
    by apply lookup_ensure.
  - by apply lookup_ensure.
Qed.

Lemma reachable_register_all (registrations : list (cls * pyfunction)) (k : classes) :
  reachable k -> reachable (register_all registrations k).
Proof.
  revert k. induction registrations as [|[c func] rs IH]; intros k Hk; [done|].
  cbn [register_all]. apply IH. by apply reachable_command.
Qed.

(** X3: a run of registrations on classes that are neither [a] nor a
    base class of [a] changes no lookup through [a]. *)
Theorem registrations_elsewhere_are_not_seen (k : classes) (a : cls)
    (registrations : list (cls * pyfunction)) (key : string) :
  reachable k ->
  Forall (fun r => ~ r.1 `suffix_of` a) registrations ->
  lookup_command (register_all registrations k) a key = lookup_command k a key.
Proof.
  intros Hreach Hall. revert k Hreach.
  induction Hall as [|[c func] rs Hc _ IH]; intros k Hreach; [done|].
  cbn [register_all]. rewrite IH by (by apply reachable_command).
  apply command_other; [by apply reachable_wf|done].
Qed.

Lemma registrations_elsewhere_are_not_seen_witness :
  lookup_command
    (register_all [(Sample.MyConsole, Sample.boom); (Sample.Leaf, Sample.quit)]
       (@builtin_classes Sample.host))
    Sample.Middle "quit"
  = lookup_command (@builtin_classes Sample.host) Sample.Middle "quit".
Proof.
  apply registrations_elsewhere_are_not_seen; [apply reachable_builtin|].
  constructor; [|constructor; [|constructor]].
  - apply (bool_decide_eq_false_1 (["MyConsole"] `suffix_of` ["Middle"])). reflexivity.
  - apply (bool_decide_eq_false_1 (["Leaf"; "Middle"] `suffix_of` ["Middle"])).
    reflexivity.
Defined.

(** * Validation and argument binding *)

Lemma scan_required_then_optional (fname : string) (required optional : list param)
    (req opt : list string) :
  Forall (fun p => kind p = POSITIONAL_OR_KEYWORD) (required ++ optional) ->
  Forall (fun p => param_default p = None) required ->
  Forall (fun p => param_default p <> None) optional ->
  scan_parameters fname (required ++ optional) req opt
  = Ok (req ++ map param_name required, opt ++ map param_name optional).
Proof.
  intros Hkind Hreq Hopt. revert req opt Hkind.
  induction Hreq as [|p required Hp _ IH]; intros req opt Hkind.
  - cbn [app map]. rewrite (right_id_L [] (++)). revert opt.
    induction Hopt as [|q optional Hq _ IHo]; intros opt.
    + cbn. by rewrite (right_id_L [] (++)).
    + apply Forall_cons in Hkind as [Hk Hkind]. cbn [scan_parameters].
      rewrite bool_decide_eq_true_2 by done.
      destruct (param_default q) as [d|]; [|done].
      rewrite IHo by done. cbn [map]. by rewrite <- (assoc_L (++)).
  - cbn [app] in Hkind. apply Forall_cons in Hkind as [Hk Hkind].
    cbn [app scan_parameters]. rewrite bool_decide_eq_true_2 by done.
    rewrite Hp, IH by done. cbn [map]. by rewrite <- (assoc_L (++)).
Qed.

Lemma bind_too_many (fname : string) (params : list param) (args : list string) :
  length params < length args ->
  exists e, bind_arguments fname params args = Raise e /\ exc_type e = TypeError.
Proof.
  revert args. induction params as [|p params IH]; intros [|a args] Hlen;
    cbn in Hlen; try lia; cbn [bind_arguments].
  - by eexists.
  - destruct (IH args) as (e & -> & He); [lia|]. by exists e.
Qed.

Lemma bind_optional (fname : string) (optional : list param) (args : list string) :
  Forall (fun p => param_default p <> None) optional ->
  length args <= length optional ->
  bind_arguments fname optional args
  = Ok (args ++ map default_value (drop (length args) optional)).
Proof.
  intros Hopt. revert args.
  induction Hopt as [|p optional Hp _ IH]; intros [|a args] Hlen;
    cbn in Hlen; try lia; cbn [bind_arguments].
  - done.
  - unfold default_value at 1. cbn [length drop app map].
    destruct (param_default p) as [d|] eqn:Hd; [|done].
    rewrite (IH []) by (cbn; lia). done.
  - rewrite IH by lia. done.
Qed.

Lemma bind_missing (fname : string) (required optional : list param)
    (args : list string) :
  Forall (fun p => param_default p = None) required ->
  length args < length required ->
  exists e,
    bind_arguments fname (required ++ optional) args = Raise e
    /\ exc_type e = TypeError.
Proof.
  intros Hreq. revert args.
  induction Hreq as [|p required Hp _ IH]; intros [|a args] Hlen;
    cbn in Hlen; try lia; cbn [app bind_arguments].
  - rewrite Hp. by eexists.
  - destruct (IH args) as (e & -> & He); [lia|]. by exists e.
Qed.

Lemma bind_within (fname : string) (required optional : list param)
    (args : list string) :
  Forall (fun p => param_default p <> None) optional ->
  length required <= length args <= length required + length optional ->
  bind_arguments fname (required ++ optional) args
  = Ok (args ++ map default_value (drop (length args - length required) optional)).
Proof.
  intros Hopt. revert args.
  induction required as [|p required IH]; intros args Hlen.
  - cbn [app length] in *. rewrite Nat.sub_0_r. apply bind_optional; [done|lia].
  - destruct args as [|a args]; cbn in Hlen; [lia|].
    cbn [app bind_arguments length]. rewrite IH by lia. done.
Qed.

(** Where the console goes when the first parameter is not a
    positional one: a star parameter takes every argument with it, and
    a keyword-only or double-star parameter makes the call fail. *)
Lemma call_first_parameter_kinds (func : pyfunction) (first : param)
    (args : list string) (w : world) :
  parameters func = [first] ->
  match kind first with
  | VAR_POSITIONAL => call func args w = body func args w
  | KEYWORD_ONLY | VAR_KEYWORD =>
      exists e, call func args w = (Raise e, w) /\ exc_type e = TypeError
  | POSITIONAL_ONLY | POSITIONAL_OR_KEYWORD =>
      args = [] -> call func args w = body func [] w
  end.
Proof.
  intros Hparams. unfold call. rewrite Hparams.
  destruct (kind first); cbn [bind_arguments].
  - by intros ->.
  - by intros ->.
  - by rewrite (right_id_L [] (++)).
  - by eexists.
  - by eexists.
Qed.

(** X4: for a function whose first parameter is positional and whose
    parameters after it are positional-or-keyword, those without a
    default first, the descriptor that [command] derives describes
    exactly the argument lists the call can bind: within the arity
    contract, which is what [_check_args] accepts, the body runs on the
    arguments followed by the defaults of the optional parameters that
    got no argument; outside of it the call raises [TypeError] without
    running the body. *)
Theorem validation_matches_binding (func : pyfunction) (first : param)
    (required optional : list param) (args : list string) :
  parameters func = first :: required ++ optional ->
  kind first = POSITIONAL_ONLY \/ kind first = POSITIONAL_OR_KEYWORD ->
  Forall (fun p => kind p = POSITIONAL_OR_KEYWORD) (required ++ optional) ->
  Forall (fun p => param_default p = None) required ->
  Forall (fun p => param_default p <> None) optional ->
  let reqargs := map param_name required in
  let optargs := map param_name optional in
  scan_parameters (__name__ func) (tail (parameters func)) [] [] = Ok (reqargs, optargs)
  /\ (spec_arity_ok reqargs optargs args ->
      forall w,
        call func args w
        = body func
            (args ++ map default_value (drop (length args - length required) optional))
            w)
  /\ (~ spec_arity_ok reqargs optargs args ->
      exists e,
        exc_type e = TypeError /\ forall w, call func args w = (Raise e, w)).
Proof.
  intros Hparams Hfirst Hkind Hreq Hopt reqargs optargs. subst reqargs optargs.
  rewrite Hparams. cbn [tail].
  split; [by apply (scan_required_then_optional _ _ _ [] [])|].
  assert (forall w, call func args w =
                    match bind_arguments (__name__ func) (required ++ optional) args with
                    | Ok vals => body func vals w
                    | Raise e => (Raise e, w)
                    end) as Hcall.
  { intros w. unfold call. rewrite Hparams.
    destruct Hfirst as [-> | ->]; by destruct (bind_arguments _ _ _). }
  unfold spec_arity_ok. rewrite !length_map. split.
  - intros Hok w. by rewrite Hcall, (bind_within _ _ _ _ Hopt Hok).
  - intros Hbad.
    destruct (decide (length args < length required)) as [Hlt|Hge].
    + destruct (bind_missing (__name__ func) _ optional _ Hreq Hlt) as (e & He & Hty).
      exists e. split; [done|]. intros w. by rewrite Hcall, He.
    + destruct (bind_too_many (__name__ func) (required ++ optional) args)
        as (e & He & Hty); [rewrite length_app; lia|].
      exists e. split; [done|]. intros w. by rewrite Hcall, He.
Qed.

Lemma validation_matches_binding_witness :
  call SampleSession.two ["x"] Sample.fresh
  = body SampleSession.two ["x"; "dflt"] Sample.fresh.
Proof.
  refine (proj1 (proj2 (validation_matches_binding SampleSession.two
                          (Param "console" POSITIONAL_OR_KEYWORD None)
                          [Param "a" POSITIONAL_OR_KEYWORD None]
                          [Param "b" POSITIONAL_OR_KEYWORD (Some "dflt")]
                          ["x"] eq_refl (or_intror eq_refl) _ _ _)) _ Sample.fresh).
  - repeat constructor.
  - repeat constructor.
  - repeat constructor. discriminate.
  - unfold spec_arity_ok. simpl. lia.
Defined.

(** * The read loop: further properties *)

Lemma command_or_not `{Host} (k : classes) (c : cls) (string_ : string) :
  spec_not_a_command k c string_
  \/ exists commandname args command,
       shlex_split string_ = Some (commandname :: args)
       /\ lookup_command k c commandname = Some command.
Proof.
  unfold spec_not_a_command.
  destruct (shlex_split string_) as [[|commandname args]|]; [by left| |by left].
  destruct (lookup_command k c commandname) as [command|] eqn:Hlook; [|by left].
  right. by exists commandname, args, command.
Qed.

Lemma is_a_command `{Host} (k : classes) (c : cls) (string_ commandname : string)
    (args : list string) (command : Command) :
  shlex_split string_ = Some (commandname :: args) ->
  lookup_command k c commandname = Some command ->
  ~ spec_not_a_command k c string_.
Proof. unfold spec_not_a_command. intros -> ->. done. Qed.

Lemma command_loop_returns `{Host} (k : classes) (c : cls) (prompt : string)
    (lines : list string) (string_ : string) (rest : list string) (w w' : world) :
  command_loop k c prompt lines w = (Ok (string_, rest), w') ->
  exists consumed,
    lines = consumed ++ string_ :: rest
    /\ Forall (fun line => ~ spec_not_a_command k c line) consumed
    /\ spec_not_a_command k c string_.
Proof.
  revert w. induction lines as [|line lines IH]; intros w; [done|].
  destruct (command_or_not k c line) as [Hnot|(name & args & command & Hsplit & Hlook)].
  - rewrite command_loop_fallback by done. intros [= <- <- _]. by exists [].
  - assert (forall w1, command_loop k c prompt lines w1 = (Ok (string_, rest), w') ->
            exists consumed,
              line :: lines = consumed ++ string_ :: rest
              /\ Forall (fun line => ~ spec_not_a_command k c line) consumed
              /\ spec_not_a_command k c string_) as Hgo.
    { intros w1 (consumed & -> & Hall & Hs)%IH. exists (line :: consumed).
      split; [done|]. split; [|done]. constructor; [|done].
      by apply (is_a_command k c line name args command). }
    destruct (decide (spec_arity_ok (reqargs command) (optargs command) args))
      as [Hok|Hbad].
    + rewrite (command_loop_dispatch _ _ _ _ _ _ _ _ _ Hsplit Hlook Hok).
      destruct (call (func command) args (emit Stdout prompt w)) as [[[]|e] w1];
        [apply Hgo|].
      destruct (is_Exception e); [apply Hgo|done].
    + rewrite (command_loop_usage _ _ _ _ _ _ _ _ _ Hsplit Hlook Hbad). apply Hgo.
Qed.

(** X5: the line that [raw_input] returns is one of the lines read, as
    it was read, followed in the input by exactly the lines left
    unread.  At the primary prompt every line consumed before it was a
    registered command and the line returned is none; at any other
    prompt it is the first line, whatever it looks like. *)
Theorem raw_input_returns_first_non_command `{Host} (k : classes) (c : cls)
    (prompt : string) (lines : list string) (string_ : string) (rest : list string)
    (w w' : world) :
  raw_input k c prompt lines w = (Ok (string_, rest), w') ->
  exists consumed,
    lines = consumed ++ string_ :: rest
    /\ (prompt <> ps1 -> consumed = [])
    /\ (prompt = ps1 ->
        Forall (fun line => ~ spec_not_a_command k c line) consumed
        /\ spec_not_a_command k c string_).
Proof.
  unfold raw_input. case_bool_decide as Hp.
  - intros (consumed & Hlines & Hall & Hs)%command_loop_returns.
    exists consumed. by repeat split.
  - unfold input, bind. rewrite write_emit.
    destruct lines as [|line lines]; [done|]. intros [= <- <- _].
    exists []. by repeat split.
Qed.

Lemma raw_input_returns_first_non_command_witness :
  exists consumed,
    ["cd pkg"; "pwd"; "x = 1"; "ls"] = consumed ++ "x = 1" :: ["ls"]
    /\ Forall (fun line =>
                 ~ @spec_not_a_command Sample.host (@builtin_classes Sample.host)
                     DebugConsole line) consumed.
Proof.
  destruct (@raw_input_returns_first_non_command Sample.host
              (@builtin_classes Sample.host) DebugConsole ">>> "
              ["cd pkg"; "pwd"; "x = 1"; "ls"] "x = 1" ["ls"] Sample.fresh
              (snd (@raw_input Sample.host (@builtin_classes Sample.host) DebugConsole
                      ">>> " ["cd pkg"; "pwd"; "x = 1"; "ls"] Sample.fresh)))
    as (consumed & Hlines & _ & Hcmds).
  - vm_compute. reflexivity.
  - exists consumed. split; [exact Hlines|]. exact (proj1 (Hcmds eq_refl)).
Defined.

(** X6: a command line with a wrong number of arguments runs no
    handler: the console and every namespace are unchanged, the usage
    line is on the standard stream after the prompt, and the loop reads
    the next line. *)
Theorem usage_failure_runs_nothing `{Host} (k : classes) (c : cls) (string_ : string)
    (rest : list string) (commandname : string) (args : list string)
    (command : Command) (w : world) :
  shlex_split string_ = Some (commandname :: args) ->
  lookup_command k c commandname = Some command ->
  ~ spec_arity_ok (reqargs command) (optargs command) args ->
  exists w1,
    raw_input k c ps1 (string_ :: rest) w = raw_input k c ps1 rest w1
    /\ con w1 = con w
    /\ namespaces w1 = namespaces w
    /\ stdout w1
       = stdout w +:+ ps1
         +:+ spec_usage_line commandname (reqargs command) (optargs command)
         +:+ newline.
Proof.
  intros Hsplit Hlook Hbad.
  exists (snd (_check_args k c commandname args (emit Stdout ps1 w))).
  split.
  - unfold raw_input. rewrite bool_decide_eq_true_2 by done.
    by apply (command_loop_usage k c ps1 string_ rest commandname args command w).
  - rewrite (check_args_unfold _ _ _ _ _ _ Hlook).
    unfold spec_arity_ok in Hbad.
    destruct (Nat.ltb_spec (length args) (length (reqargs command)));
      [|destruct (Nat.ltb_spec (length (reqargs command) + length (optargs command))
                   (length args)); [|lia]];
      cbn; by rewrite !str_app_assoc.
Qed.

Lemma usage_failure_runs_nothing_witness :
  exists w1,
    @raw_input Sample.host (@builtin_classes Sample.host) DebugConsole ">>> "
      ["pwd x"; "y"] Sample.at_main
    = @raw_input Sample.host (@builtin_classes Sample.host) DebugConsole ">>> "
        ["y"] w1
    /\ con w1 = con Sample.at_main.
Proof.
  destruct (@usage_failure_runs_nothing Sample.host (@builtin_classes Sample.host)
              DebugConsole "pwd x" ["y"] "pwd" ["x"]
              (mkCommand (@pwd Sample.host) [] [] (__doc__ (@pwd Sample.host)))
              Sample.at_main eq_refl eq_refl)
    as (w1 & Hrun & Hcon & _).
  - unfold spec_arity_ok. simpl. lia.
  - exists w1. split; [exact Hrun|exact Hcon].
Defined.

(** * Navigation: further properties *)

(** X7: [add_helper] followed by [remove_helper] leaves every
    namespace as it was, provided [help] was not already bound to the
    console's own helper: a name that was unbound is unbound again, and
    a binding of the user is kept. *)
Theorem add_then_remove_helper (w : world) (m : modref) :
  module (con w) = Some m ->
  namespace_of (namespaces w) m !! "help" <> Some (_helper (con w)) ->
  exists w1 w2,
    add_helper w = (Ok tt, w1)
    /\ remove_helper w1 = (Ok tt, w2)
    /\ con w2 = con w /\ stdout w2 = stdout w /\ stderr w2 = stderr w
    /\ forall m' key,
         namespace_of (namespaces w2) m' !! key = namespace_of (namespaces w) m' !! key.
Proof.
  intros Hm Hnot. eexists _, _.
  split; [by apply add_helper_unfold|].
  split; [by apply remove_helper_unfold|].
  cbn [con namespaces stdout stderr]. repeat split. intros m' key.
  rewrite remove_helper_lookup, !install_helper_lookup.
  destruct (namespace_of (namespaces w) m !! "help") as [v|] eqn:Hv;
    repeat case_decide; destruct_and?; simplify_eq; try done;
    try (exfalso; naive_solver).
Qed.

Lemma add_then_remove_helper_witness :
  exists w1 w2,
    add_helper SampleSession.bare = (Ok tt, w1)
    /\ namespace_of (namespaces w1) 1 !! "help" = Some 7
    /\ remove_helper w1 = (Ok tt, w2)
    /\ namespace_of (namespaces w2) 1 !! "help" = None.
Proof.
  destruct (add_then_remove_helper SampleSession.bare 1 eq_refl)
    as (w1 & w2 & Hadd & Hremove & _ & _ & _ & Hsame).
  - discriminate.
  - exists w1, w2. split; [exact Hadd|].
    split; [injection Hadd as <-; vm_compute; reflexivity|].
    split; [exact Hremove|]. rewrite Hsame. vm_compute. reflexivity.
Defined.

(** X8: when only the current module may bind [help] to the console's
    helper, and the loader binds it nowhere, the same holds after a
    successful [cd]; and the module entered then binds [help]. *)
Theorem cd_keeps_helper_exclusive `{Host} (w : world) (modulename_ n : string)
    (entered : modref) (ns1 : gmap modref (gmap string pyobj)) :
  helper_exclusive w ->
  resolve_name modulename_ (modulename (con w)) = Ok n ->
  import_module n (namespaces w) = (Ok entered, ns1) ->
  (forall m,
     namespace_of ns1 m !! "help" = Some (_helper (con w)) ->
     namespace_of (namespaces w) m !! "help" = Some (_helper (con w))) ->
  exists w',
    run_command builtin_classes DebugConsole "cd" [modulename_] w = (Ok tt, w')
    /\ helper_exclusive w'
    /\ is_Some (namespace_of (namespaces w') entered !! "help").
Proof.
  intros Hexcl Hres Himp Hloader.
  rewrite run_cd, cd_body_unfold. cbv zeta. rewrite Hres, Himp.
  eexists. split; [done|]. unfold helper_exclusive.
  cbn [con namespaces _helper module]. split.
  - intros m. rewrite install_helper_lookup.
    case_decide as Hin; [by destruct Hin as [-> _]|].
    destruct (module (con w)) as [left|] eqn:Hleft.
    + rewrite remove_helper_lookup. case_decide as Hrm; [done|].
      intros Hm. pose proof (Hexcl m (Hloader m Hm)) as Hcur.
      rewrite Hleft in Hcur. injection Hcur as ->. exfalso. by apply Hrm.
    + cbn [spec_remove_helper]. intros Hm.
      pose proof (Hexcl m (Hloader m Hm)) as Hcur. by rewrite Hleft in Hcur.
  - rewrite install_helper_lookup. case_decide as Hin; [done|].
    destruct (namespace_of (spec_remove_helper (_helper (con w)) (module (con w)) ns1)
                entered !! "help") eqn:Hb; [done|].
    exfalso. by apply Hin.
Qed.

Lemma cd_keeps_helper_exclusive_witness :
  exists w',
    @run_command (@builtin_classes Sample.host) DebugConsole "cd" ["pkg"] Sample.at_main
    = (Ok tt, w')
    /\ helper_exclusive w'.
Proof.
  destruct (@cd_keeps_helper_exclusive Sample.host Sample.at_main "pkg" "pkg" 2
              (namespaces Sample.at_main)) as (w' & Hrun & Hexcl & _).
  - intros m. unfold Sample.at_main, namespace_of. cbn [con namespaces _helper module].
    destruct (decide (m = 1)) as [->|H1]; [done|].
    rewrite lookup_total_alt, lookup_insert_ne by done.
    destruct (decide (m = 2)) as [->|H2].
    + rewrite lookup_singleton_eq. vm_compute. discriminate.
    + rewrite lookup_singleton_ne by done. vm_compute. discriminate.
  - reflexivity.
  - reflexivity.
  - intros m Hm. exact Hm.
  - exists w'. split; [exact Hrun|exact Hexcl].
Defined.

(** X9: [cd] takes a name without a leading dot as absolute: the name
    resolves to itself whatever the current name is, the loader is
    asked for that very name, and when the load succeeds the name
    becomes the current name and the loaded module the current module;
    when the load fails, [cd] raises that failure. *)
Theorem cd_takes_undotted_names_as_absolute `{Host} (w : world) (name : string) :
  Str.startswith "." name = false ->
  (forall package, resolve_name name package = Ok name)
  /\ match import_module name (namespaces w) with
     | (Ok m, _) =>
         exists w',
           run_command builtin_classes DebugConsole "cd" [name] w = (Ok tt, w')
           /\ modulename (con w') = Some name
           /\ module (con w') = Some m
     | (Raise e, _) =>
         exists w',
           run_command builtin_classes DebugConsole "cd" [name] w = (Raise e, w')
     end.
Proof.
  intros Hdot.
  assert (forall package, resolve_name name package = Ok name) as Hres.
  { intros package. unfold resolve_name. by rewrite Hdot. }
  split; [done|].
  rewrite run_cd, cd_body_unfold. cbv zeta. rewrite Hres.
  destruct (import_module name (namespaces w)) as [[m|e] ns1]; by eexists.
Qed.

Lemma cd_takes_undotted_names_as_absolute_witness :
  exists w',
    @run_command (@builtin_classes Sample.host) DebugConsole "cd" ["sub"]
      (World (Console 7 false (Some "pkg") (Some 2)) ∅ "" "")
    = (Raise (Exc ImportError "No module named sub"), w').
Proof.
  exact (proj2 (@cd_takes_undotted_names_as_absolute Sample.host
                  (World (Console 7 false (Some "pkg") (Some 2)) ∅ "" "") "sub"
                  eq_refl)).
Defined.

(** * [pwd] and [ls] *)

Lemma endswith_char_app (c : ascii) (s : string) :
  Str.endswith_char c (s +:+ String c EmptyString) = true.
Proof.
  induction s as [|a s IH]; [cbn; apply Ascii.eqb_refl|].
  rewrite str_app_cons. cbn [Str.endswith_char].
  destruct (s +:+ String c "") eqn:Hs; [by destruct s|]. exact IH.
Qed.

Lemma drop_last_app (c : ascii) (s : string) :
  Str.drop_last (s +:+ String c EmptyString) = s.
Proof.
  induction s as [|a s IH]; [done|].
  rewrite str_app_cons. cbn [Str.drop_last].
  destruct (s +:+ String c "") eqn:Hs; [by destruct s|]. by rewrite IH.
Qed.

Lemma run_pwd `{Host} (w : world) :
  run_command builtin_classes DebugConsole "pwd" [] w = pwd_body w.
Proof. unfold run_command. by rewrite builtin_lookup_pwd. Qed.

Lemma run_ls `{Host} (w : world) :
  run_command builtin_classes DebugConsole "ls" [] w = ls_body w.
Proof. unfold run_command. by rewrite builtin_lookup_ls. Qed.

(** X10: [pwd] prints the [repr] of the current module, without its
    first and last character when it starts with [<] and ends with
    [>], and unchanged otherwise; a verbose console prints
    [You are currently in ] before it on the same line. *)
Theorem pwd_prints_the_display_form `{Host} (w : world) :
  let prefix := if verbose (con w) then "You are currently in " else "" in
  let result := repr_module (module (con w)) in
  (forall inner,
     result = "<" +:+ inner +:+ ">" ->
     run_command builtin_classes DebugConsole "pwd" [] w
     = (Ok tt, emit Stdout (prefix +:+ inner +:+ newline) w))
  /\ (Str.startswith "<" result = false \/ Str.endswith_char ">" result = false ->
      run_command builtin_classes DebugConsole "pwd" [] w
      = (Ok tt, emit Stdout (prefix +:+ result +:+ newline) w)).
Proof.
  intros prefix result.
  assert (forall shown,
            (if Str.startswith "<" result && Str.endswith_char ">" result
             then Str.strip_ends result else result) = shown ->
            run_command builtin_classes DebugConsole "pwd" [] w
            = (Ok tt, emit Stdout (prefix +:+ shown +:+ newline) w)) as Hshow.
  { intros shown Hshown. rewrite run_pwd. unfold pwd_body, bind.
    cbn [get_console]. fold result. rewrite Hshown.
    subst prefix. unfold when, print, print_to, print_end.
    destruct (verbose (con w)); unfold write, ret; cbn [Str.join];
      rewrite ?emit_emit; by rewrite ?str_app_assoc. }
  split.
  - intros inner Hres. apply Hshow. rewrite Hres.
    assert (Str.startswith "<" ("<" +:+ inner +:+ ">") = true) as ->.
    { unfold Str.startswith. rewrite str_app_cons. cbn.
      change ("" +:+ inner +:+ ">") with (inner +:+ ">").
      by destruct (inner +:+ ">"). }
    rewrite str_app_cons. cbn [Str.endswith_char Str.strip_ends].
    change ("" +:+ inner +:+ ">") with (inner +:+ ">").
    rewrite (drop_last_app ">" inner).
    destruct (inner +:+ ">") eqn:Hi; [by destruct inner|].
    rewrite <- Hi. by rewrite (endswith_char_app ">" inner).
  - intros Hor. apply Hshow. destruct Hor as [-> | ->]; [done|].
    by rewrite andb_false_r.
Qed.

Lemma pwd_prints_the_display_form_witness :
  @run_command (@builtin_classes Sample.host) DebugConsole "pwd" [] Sample.at_main
  = (Ok tt, emit Stdout ("module 'pkg'" +:+ newline) Sample.at_main).
Proof.
  exact (proj1 (@pwd_prints_the_display_form Sample.host Sample.at_main)
           "module 'pkg'" eq_refl).
Defined.

Lemma emit_frame (file : stream) (text : string) (w : world) :
  con (emit file text w) = con w /\ namespaces (emit file text w) = namespaces w.
Proof. by destruct file. Qed.

Lemma print_list_writes_stdout_only `{Host} (stringlist : list string) (w : world) :
  exists text,
    snd (_print_list stringlist w) = emit Stdout text w.
Proof.
  unfold _print_list. destruct stringlist as [|s l].
  { exists "". by rewrite emit_nil. }
  destruct (_ <? 2).
  - rewrite (for_each_print_map (fun name => name)). by eexists.
  - rewrite (for_each_print_map
               (fun y =>
                  Str.rstrip
                    (row_line (s :: l) (Str.max_len (s :: l))
                       (Str.ceil_div (length (s :: l))
                          (terminal_columns / (Str.max_len (s :: l) + 2)))
                       y))).
    by eexists.
Qed.

Lemma ls_body_only_prints `{Host} (w : world) :
  exists text, snd (ls_body w) = emit Stdout text w.
Proof.
  unfold ls_body, bind. cbn [get_console].
  unfold when, print, print_to, print_end, write, ret, get_namespaces.
  destruct (verbose (con w)).
  - match goal with
    | |- context [_print_list ?l ?w1] =>
        destruct (print_list_writes_stdout_only l w1) as [t Ht];
        destruct (_print_list l w1) as [r w2]
    end.
    cbn [snd] in Ht. subst w2. rewrite emit_emit. destruct r; by eexists.
  - match goal with
    | |- context [_print_list ?l ?w1] =>
        destruct (print_list_writes_stdout_only l w1) as [t Ht];
        destruct (_print_list l w1) as [r w2]
    end.
    cbn [snd] in Ht. subst w2. destruct r; by eexists.
Qed.

Lemma pwd_body_only_prints `{Host} (w : world) :
  exists text, snd (pwd_body w) = emit Stdout text w.
Proof.
  unfold pwd_body, bind. cbn [get_console].
  unfold when, print, print_to, print_end, write, ret.
  destruct (verbose (con w)); cbn [snd]; rewrite ?emit_emit; by eexists.
Qed.

(** X11: [ls] and [pwd], however many arguments they are run with and
    whether they return or raise, leave the console and every namespace
    as they were and write nothing to the error stream. *)
Theorem ls_and_pwd_only_print `{Host} (commandname : string) (args : list string)
    (w : world) :
  commandname = "ls" \/ commandname = "pwd" ->
  let w' := snd (run_command builtin_classes DebugConsole commandname args w) in
  con w' = con w
  /\ namespaces w' = namespaces w
  /\ stderr w' = stderr w
  /\ exists text, stdout w' = stdout w +:+ text.
Proof.
  intros Hname w'.
  assert (exists text, w' = emit Stdout text w) as [text ->].
  { subst w'. unfold run_command. destruct Hname as [-> | ->].
    - rewrite builtin_lookup_ls. destruct args as [|a args].
      + apply ls_body_only_prints.
      + exists "". by rewrite emit_nil.
    - rewrite builtin_lookup_pwd. destruct args as [|a args].
      + apply pwd_body_only_prints.
      + exists "". by rewrite emit_nil. }
  repeat split. by exists text.
Qed.

Lemma ls_and_pwd_only_print_witness :
  con (snd (run_command (@builtin_classes Sample.host) DebugConsole "ls" []
              Sample.at_main))
  = con Sample.at_main.
Proof.
  exact (proj1 (@ls_and_pwd_only_print Sample.host "ls" [] Sample.at_main
                  (or_introl eq_refl))).
Defined.

(** * Column layout: further properties *)

Lemma length_join_cells (width : nat) (cells : list string) :
  Forall (fun cell => String.length cell = width) cells ->
  cells <> [] ->
  String.length (Str.join "  " cells) + 2 = length cells * (width + 2).
Proof.
  induction 1 as [|c0 cs Hc0 Hcs IH]; intros Hne; [done|].
  destruct cs as [|c1 cs].
  - cbn [Str.join length]. lia.
  - rewrite join_cons_cons, !str_length_app, Hc0.
    specialize (IH ltac:(done)).
    change (String.length "  ") with 2. cbn [length] in *. nia.
Qed.

Lemma length_rstrip (s : string) : String.length (Str.rstrip s) <= String.length s.
Proof.
  destruct (rstrip_padding s) as [pad Hpad]. rewrite Hpad at 2.
  rewrite str_length_app. lia.
Qed.

Lemma rows_at_most_length (n columns : nat) :
  1 <= n -> 1 <= columns -> Str.ceil_div n columns <= n.
Proof.
  intros Hn Hc. unfold Str.ceil_div.
  apply Nat.Div0.div_le_upper_bound. nia.
Qed.

(** X12: in the multi-column layout every cell is one name of the list:
    cell [j] of row [y] is the padded name at index [y + j * rows],
    the one index with that row and column, and [j] is below the number
    of columns that fit. *)
Theorem print_list_cells_are_names `{Host} (stringlist : list string)
    (y j : nat) (cell : string) :
  stringlist <> [] ->
  let maxlen := Str.max_len stringlist in
  let columns := terminal_columns / (maxlen + 2) in
  let rows := Str.ceil_div (length stringlist) columns in
  2 <= columns ->
  y < rows ->
  row_cells stringlist maxlen rows y !! j = Some cell ->
  exists name,
    stringlist !! (y + j * rows) = Some name
    /\ cell = Str.ljust maxlen name
    /\ (y + j * rows) mod rows = y
    /\ (y + j * rows) / rows = j
    /\ j < columns.
Proof.
  intros Hne maxlen columns rows Hcols Hy Hcell.
  assert (1 <= length stringlist) as Hlen.
  { destruct stringlist; [done|simpl; lia]. }
  assert (1 <= rows) as Hrows by lia.
  assert (length stringlist <= rows * columns) as Hcover by (apply rows_cover; lia).
  unfold row_cells in Hcell. rewrite list_lookup_fmap in Hcell.
  destruct (Str.slice_step stringlist y rows !! j) as [name|] eqn:Hname; [|done].
  injection Hcell as <-. rewrite slice_step_lookup in Hname by done.
  exists name. split; [done|]. split; [done|].
  pose proof (lookup_lt_Some _ _ _ Hname) as Hlt.
  split; [|split].
  - rewrite Nat.Div0.mod_add. by apply Nat.mod_small.
  - rewrite Nat.div_add by lia. rewrite (Nat.div_small y rows) by done. lia.
  - nia.
Qed.

Lemma print_list_cells_are_names_witness :
  exists name,
    ["alpha"; "b"; "gamma"; "delta"; "e"] !! 4 = Some name
    /\ "e    " = Str.ljust 5 name.
Proof.
  destruct (@print_list_cells_are_names Sample.host
              ["alpha"; "b"; "gamma"; "delta"; "e"] 1 1 "e    ")
    as (name & Hname & Hcell & _).
  - discriminate.
  - vm_compute. lia.
  - vm_compute. lia.
  - vm_compute. reflexivity.
  - exists name. split; [exact Hname|exact Hcell].
Defined.

(** X13: in the multi-column layout every row has at least one and at
    most [columns] cells, and every printed line is at least two
    characters shorter than the terminal is wide. *)
Theorem print_list_lines_fit_the_terminal `{Host} (stringlist : list string) (y : nat) :
  stringlist <> [] ->
  let maxlen := Str.max_len stringlist in
  let columns := terminal_columns / (maxlen + 2) in
  let rows := Str.ceil_div (length stringlist) columns in
  2 <= columns ->
  y < rows ->
  1 <= length (row_cells stringlist maxlen rows y) <= columns
  /\ String.length (row_line stringlist maxlen rows y) + 2
     = length (row_cells stringlist maxlen rows y) * (maxlen + 2)
  /\ String.length (Str.rstrip (row_line stringlist maxlen rows y)) + 2
     <= terminal_columns.
Proof.
  intros Hne maxlen columns rows Hcols Hy.
  assert (1 <= length stringlist) as Hlen.
  { destruct stringlist; [done|simpl; lia]. }
  assert (1 <= rows) as Hrows by lia.
  assert (rows <= length stringlist) as Hrn by (apply rows_at_most_length; lia).
  assert (length stringlist <= rows * columns) as Hcover by (apply rows_cover; lia).
  assert (columns * (maxlen + 2) <= terminal_columns) as Hfit.
  { subst columns. rewrite Nat.mul_comm. apply Nat.Div0.mul_div_le. }
  assert (1 <= length (row_cells stringlist maxlen rows y) <= columns) as Hcount.
  { unfold row_cells. rewrite length_map. split.
    - destruct (Str.slice_step stringlist y rows) as [|c0 cs] eqn:Hs; [|simpl; lia].
      exfalso. assert (is_Some (stringlist !! (y + 0 * rows))) as [x Hx].
      { apply lookup_lt_is_Some. lia. }
      rewrite <- slice_step_lookup in Hx by done. by rewrite Hs in Hx.
    - destruct (decide (length (Str.slice_step stringlist y rows) <= columns))
        as [|Hgt]; [done|]. exfalso.
      assert (is_Some (Str.slice_step stringlist y rows !! columns)) as [x Hx].
      { apply lookup_lt_is_Some. lia. }
      rewrite slice_step_lookup in Hx by done.
      apply lookup_lt_Some in Hx. nia. }
  split; [done|].
  assert (String.length (row_line stringlist maxlen rows y) + 2
          = length (row_cells stringlist maxlen rows y) * (maxlen + 2)) as Hline.
  { unfold row_line. apply length_join_cells.
    - by apply row_cells_width.
    - intros Hnil. rewrite Hnil in Hcount. simpl in Hcount. lia. }
  split; [done|].
  pose proof (length_rstrip (row_line stringlist maxlen rows y)). nia.
Qed.

Lemma print_list_lines_fit_the_terminal_witness :
  String.length
    (Str.rstrip (row_line ["alpha"; "b"; "gamma"; "delta"; "e"] 5 3 0)) + 2 <= 14.
Proof.
  refine (proj2 (proj2 (@print_list_lines_fit_the_terminal Sample.host
                          ["alpha"; "b"; "gamma"; "delta"; "e"] 0 _ _ _))).
  - discriminate.
  - vm_compute. lia.
  - vm_compute. lia.
Defined.

(** * The help object *)

Lemma mapping_items_lookup (h : list mapping) (l : loc) (key : string) :
  mapping_items h l !! key = getitem h l key.
Proof.
  revert l. induction h as [|o h IH]; intros l; [done|].
  cbn [mapping_items getitem]. destruct (l =? length h); [|apply IH].
  destruct o as [d|first parent]; [done|].
  destruct (first !! key) as [cmd|] eqn:Hfirst.
  - by apply lookup_union_Some_l.
  - rewrite lookup_union_r by done. apply IH.
Qed.

Global Instance by_name_total : Total by_name.
Proof. intros x y. unfold by_name. apply (total String.le). Qed.

Lemma help_text_shape `{Runtime} {A} (a b c : string) (l : list A) (f : A -> string)
    (w : world) :
  (_wprint a ;; _wprint b ;; print [c] ;; for_each l (fun x => print [f x]))%py w
  = (Ok tt,
     emit Stdout
       ((textwrap_fill a +:+ newline +:+ newline
         +:+ textwrap_fill b +:+ newline +:+ newline)
        +:+ c +:+ newline
        +:+ String.concat "" (map (fun x => f x +:+ newline) l))
       w).
Proof.
  unfold bind, _wprint.
  unfold print_end at 1 2. rewrite !write_emit.
  unfold print at 1. unfold print_to, print_end at 1. rewrite write_emit.
  rewrite (for_each_print_map f), !emit_emit.
  cbn [Str.join]. by rewrite !str_app_assoc.
Qed.

(** X14: [help()] lists exactly the commands that dispatch finds for
    the console: a name is listed with a descriptor exactly when the
    lookup of the name yields that descriptor, so a command overridden
    in a derived layer is listed once, with the overriding descriptor;
    the list is in increasing order of names, and one line per command
    follows the line [Here is a list of the special commands:]. *)
Theorem help_lists_what_dispatch_finds `{Runtime} (k : classes) (c : cls) (w : world) :
  (forall name command,
     (name, command) ∈ sorted_commands k c <-> lookup_command k c name = Some command)
  /\ Sorted by_name (sorted_commands k c)
  /\ NoDup (sorted_commands k c).*1
  /\ exists intro,
       _Helper_call k c None w
       = (Ok tt,
          emit Stdout
            (intro
             +:+ "Here is a list of the special commands:" +:+ newline
             +:+ String.concat ""
                   (map (fun entry => command_line entry +:+ newline)
                      (sorted_commands k c)))
            w).
Proof.
  split; [|split; [|split]].
  - intros name command. unfold sorted_commands, lookup_command.
    destruct (commands k c) as [l|]; [|by rewrite elem_of_nil].
    rewrite merge_sort_Permutation, elem_of_map_to_list.
    by rewrite mapping_items_lookup.
  - unfold sorted_commands. destruct (commands k c); [|constructor].
    apply (Sorted_merge_sort by_name).
  - unfold sorted_commands. destruct (commands k c); [|constructor].
    rewrite merge_sort_Permutation. apply NoDup_fst_map_to_list.
  - eexists. unfold _Helper_call. apply help_text_shape.
Qed.

(** * [debug] *)

(** The world in which [debug] makes its first [cd]: the two opening
    lines are printed and the console is new. *)
Lemma debug_unfold `{Host} `{Runtime} (k : classes) (module_ : string)
    (consoleclass : cls) (verbose_ : bool) (helper : pyobj) (w : world) :
  debug k module_ consoleclass verbose_ helper w =
    let w1 :=
      World (__init__ helper verbose_) (namespaces w)
        (stdout w
         +:+ "Starting a debugging session in module " +:+ repr_str module_
         +:+ " on Python " +:+ python_version +:+ newline
         +:+ "Type 'help' for more info." +:+ newline)
        (stderr w) in
    match run_command k DebugConsole "cd" [module_] w1 with
    | (Raise e, w2) => (Raise e, w2)
    | (Ok _, w2) =>
        match interact (raw_input k DebugConsole) w2 with
        | (Raise e, w3) => (Raise e, w3)
        | (Ok _, w3) =>
            remove_helper (emit Stdout ("Exiting the debugging session." +:+ newline) w3)
        end
    end.
Proof.
  unfold debug. unfold bind at 1, print, print_to, print_end. rewrite write_emit.
  unfold bind at 1. rewrite write_emit, emit_emit.
  unfold bind at 1, set_console. cbn [emit con namespaces stdout stderr Str.join].
  rewrite !str_app_assoc. cbv zeta. unfold bind at 1.
  destruct (run_command k DebugConsole "cd" [module_] _) as [[[]|e] w2]; [|done].
  unfold bind at 1.
  destruct (interact (raw_input k DebugConsole) w2) as [[[]|e] w3]; [|done].
  unfold bind. by rewrite write_emit.
Qed.

(** X15: when the module given to [debug] cannot be resolved or loaded,
    [debug] raises that failure and stops where its first [cd] stopped:
    its result is the result of that [cd], run after the two opening
    lines by the new console, which is still at no module.  So the
    session was not started and nothing was done after the failure. *)
Theorem debug_aborts_when_the_first_cd_fails `{Host} `{Runtime} (module_ : string)
    (consoleclass : cls) (verbose_ : bool) (helper : pyobj) (w : world) (e : exc) :
  resolve_name module_ None = Raise e
  \/ (exists n, resolve_name module_ None = Ok n
                /\ fst (import_module n (namespaces w)) = Raise e) ->
  let opened :=
    World (__init__ helper verbose_) (namespaces w)
      (stdout w
       +:+ "Starting a debugging session in module " +:+ repr_str module_
       +:+ " on Python " +:+ python_version +:+ newline
       +:+ "Type 'help' for more info." +:+ newline)
      (stderr w) in
  exists w',
    run_command builtin_classes DebugConsole "cd" [module_] opened = (Raise e, w')
    /\ debug builtin_classes module_ consoleclass verbose_ helper w = (Raise e, w')
    /\ con w' = __init__ helper verbose_.
Proof.
  intros Hfail opened. rewrite debug_unfold. cbv zeta. fold opened.
  assert (exists w',
            run_command builtin_classes DebugConsole "cd" [module_] opened
            = (Raise e, w')
            /\ con w' = __init__ helper verbose_) as (w' & Hrun & Hcon).
  { rewrite run_cd, cd_body_unfold. cbv zeta.
    assert (con (announced module_ opened) = __init__ helper verbose_) as Hann.
    { unfold announced. by destruct (verbose (con opened)). }
    subst opened. cbn [con namespaces modulename __init__] in *.
    destruct Hfail as [Hres|(n & Hres & Himp)]; rewrite Hres.
    - by eexists.
    - destruct (import_module n (namespaces w)) as [[m|e'] ns]; cbn in Himp; [done|].
      injection Himp as ->. by eexists. }
  exists w'. by rewrite Hrun.
Qed.

Lemma debug_aborts_when_the_first_cd_fails_witness :
  exists w',
    @debug Sample.host SampleSession.runtime (@builtin_classes Sample.host) "nope"
      DebugConsole false 7 Sample.fresh
    = (Raise (Exc ImportError "No module named nope"), w')
    /\ con w' = __init__ 7 false.
Proof.
  destruct (@debug_aborts_when_the_first_cd_fails Sample.host SampleSession.runtime
              "nope" DebugConsole false 7 Sample.fresh
              (Exc ImportError "No module named nope"))
    as (w' & _ & Hrun & Hcon).
  - right. exists "nope". split; reflexivity.
  - exists w'. split; [exact Hrun|exact Hcon].
Defined.

(** X16: once the first [cd] of [debug] has succeeded: when the session
    returns, [debug] prints the closing line and removes [help] from
    the module that is current then, if it is bound to the console's
    helper; when the session raises, [debug] raises the same with the
    world as the session left it, the helper binding still in place. *)
Theorem debug_end_of_session `{Host} `{Runtime} (k : classes) (module_ : string)
    (consoleclass : cls) (verbose_ : bool) (helper : pyobj) (w w2 : world) :
  run_command k DebugConsole "cd" [module_]
    (World (__init__ helper verbose_) (namespaces w)
       (stdout w
        +:+ "Starting a debugging session in module " +:+ repr_str module_
        +:+ " on Python " +:+ python_version +:+ newline
        +:+ "Type 'help' for more info." +:+ newline)
       (stderr w))
  = (Ok tt, w2) ->
  match interact (raw_input k DebugConsole) w2 with
  | (Ok _, w3) =>
      forall m,
        module (con w3) = Some m ->
        debug k module_ consoleclass verbose_ helper w
        = (Ok tt,
           World (con w3)
             (spec_remove_helper (_helper (con w3)) (Some m) (namespaces w3))
             (stdout w3 +:+ "Exiting the debugging session." +:+ newline)
             (stderr w3))
  | (Raise e, w3) =>
      debug k module_ consoleclass verbose_ helper w = (Raise e, w3)
  end.
Proof.
  intros Hcd. rewrite debug_unfold. cbv zeta. rewrite Hcd.
  destruct (interact (raw_input k DebugConsole) w2) as [[[]|e] w3]; [|done].
  intros m Hm. by rewrite (remove_helper_unfold _ m).
Qed.

Lemma debug_end_of_session_witness :
  exists w',
    @debug Sample.host SampleSession.runtime (@builtin_classes Sample.host) "__main__"
      DebugConsole false 7 Sample.fresh
    = (Ok tt, w')
    /\ module (con w') = Some 2
    /\ namespace_of (namespaces w') 1 !! "help" = None
    /\ namespace_of (namespaces w') 2 !! "help" = Some 9.
Proof.
  pose proof (@debug_end_of_session Sample.host SampleSession.runtime
                (@builtin_classes Sample.host) "__main__" DebugConsole false 7
                Sample.fresh
                (snd (run_command (@builtin_classes Sample.host) DebugConsole "cd"
                        ["__main__"]
                        (World (__init__ 7 false) (namespaces Sample.fresh)
                           (stdout Sample.fresh
                            +:+ "Starting a debugging session in module "
                            +:+ @repr_str SampleSession.runtime "__main__"
                            +:+ " on Python " +:+ @python_version SampleSession.runtime
                            +:+ newline
                            +:+ "Type 'help' for more info." +:+ newline)
                           (stderr Sample.fresh))))
                eq_refl) as Hend.
  cbv beta iota in Hend.
  match type of Hend with
  | match ?r with _ => _ end =>
      assert (exists w3, r = (Ok tt, w3) /\ module (con w3) = Some 2) as (w3 & Hr & Hm);
        [eexists; split; vm_compute; reflexivity|]
  end.
  rewrite Hr in Hend. specialize (Hend 2 Hm).
  eexists. split; [exact Hend|]. cbn [con namespaces]. split; [exact Hm|].
  assert (namespaces w3
          = {[ 1 := ∅; 2 := {[ "help" := 9 ]} ]}
          /\ _helper (con w3) = 7) as [-> ->].
  { injection Hr as <-. split; vm_compute; reflexivity. }
  split; vm_compute; reflexivity.
Defined.

(** * The built-in command table, and commands that succeed *)

(** X17: the commands of [DebugConsole] after [_setup_commands] are
    [cd] with the one optional argument [modulename], and [ls] and
    [pwd] without arguments; no other name is a command. *)
Theorem builtin_command_table `{Host} (name : string) :
  lookup_command builtin_classes DebugConsole name =
    if decide (name = "cd") then Some (mkCommand cd [] ["modulename"] (__doc__ cd))
    else if decide (name = "ls") then Some (mkCommand ls [] [] (__doc__ ls))
    else if decide (name = "pwd") then Some (mkCommand pwd [] [] (__doc__ pwd))
    else None.
Proof.
  assert (commands builtin_classes DebugConsole = Some 0) as Hc by reflexivity.
  assert (heap builtin_classes
          = [Dict (<["pwd" := mkCommand pwd [] [] (__doc__ pwd)]>
                     (<["ls" := mkCommand ls [] [] (__doc__ ls)]>
                        (<["cd" := mkCommand cd [] ["modulename"] (__doc__ cd)]> ∅)))])
    as Hh by reflexivity.
  unfold lookup_command. rewrite Hc, Hh. cbn [getitem length Nat.eqb].
  rewrite !lookup_insert, lookup_empty.
  repeat case_decide; simplify_eq; done.
Qed.

(** X18: a command line with a valid number of arguments whose handler
    returns is consumed: the loop writes nothing of its own and reads
    the next line in the world the handler left. *)
Theorem successful_command_continues `{Host} (k : classes) (c : cls)
    (string_ : string) (rest : list string) (commandname : string)
    (args : list string) (command : Command) (w w1 : world) :
  shlex_split string_ = Some (commandname :: args) ->
  lookup_command k c commandname = Some command ->
  spec_arity_ok (reqargs command) (optargs command) args ->
  call (func command) args (emit Stdout ps1 w) = (Ok tt, w1) ->
  raw_input k c ps1 (string_ :: rest) w = raw_input k c ps1 rest w1.
Proof.
  intros Hsplit Hlook Hok Hcall. unfold raw_input.
  rewrite bool_decide_eq_true_2 by done.
  rewrite (command_loop_dispatch _ _ _ _ _ _ _ _ _ Hsplit Hlook Hok).
  by rewrite Hcall.
Qed.

Lemma successful_command_continues_witness :
  exists w1,
    @raw_input Sample.host (@builtin_classes Sample.host) DebugConsole ">>> "
      ["cd pkg"; "x"] Sample.at_main
    = @raw_input Sample.host (@builtin_classes Sample.host) DebugConsole ">>> "
        ["x"] w1
    /\ modulename (con w1) = Some "pkg".
Proof.
  eexists. split.
  - refine (@successful_command_continues Sample.host (@builtin_classes Sample.host)
              DebugConsole "cd pkg" ["x"] "cd" ["pkg"]
              (mkCommand (@cd Sample.host) [] ["modulename"] (__doc__ (@cd Sample.host)))
              Sample.at_main _ eq_refl eq_refl _ _).
    + unfold spec_arity_ok. simpl. lia.
    + vm_compute. reflexivity.
  - reflexivity.
Defined.
